(** * Blind search (solutions.py, main.py): a shallow embedding

    Python's [float] and numpy's [float64] are IEEE 754 binary64 numbers, the
    type of Rocq's primitive floats; [<] of the source is [PrimFloat.ltb].
    numpy's process-wide generator is an explicit state, exceptions are the
    left injection of a sum, and the objective [fnc] is a pure function from
    the argument list to a float. The call [self.visualize(best_points, fnc)]
    that [solve] makes with two axes belongs to matplotlib; what it does for
    its caller, return or raise, is an argument of [solve]. *)

From Stdlib Require Import ZArith List Bool Lia Floats Sorted Permutation.
Import ListNotations.

Local Open Scope float_scope.

(** ** Exceptions *)

Module Py.

Inductive exn : Set :=
| IndexError       (* list index out of range *)
| ValueError       (* numpy: negative dimensions are not allowed *)
| AttributeError.  (* raised under [visualize], by matplotlib *)

Definition result (A : Type) : Type := (exn + A)%type.

Definition bind {A B : Type} (c : result A) (k : A -> result B) : result B :=
  match c with
  | inl e => inl e
  | inr a => k a
  end.

(** [xs[i]] for an index [i >= 0]. *)
Definition getitem {A : Type} (xs : list A) (i : nat) : result A :=
  match nth_error xs i with
  | Some x => inr x
  | None => inl IndexError
  end.

(** [[f(x) for x in xs]] where [f] may raise: the first exception wins. *)
Fixpoint traverse {A B : Type} (f : A -> result B) (xs : list A) : result (list B) :=
  match xs with
  | [] => inr []
  | x :: xs' => bind (f x) (fun y => bind (traverse f xs') (fun ys => inr (y :: ys)))
  end.

(** [for i in idx: st = body(st, i)], aborted by the first exception. *)
Fixpoint for_each {S : Type} (body : S -> nat -> result S) (idx : list nat) (st : S)
  : result S :=
  match idx with
  | [] => inr st
  | i :: idx' => bind (body st i) (for_each body idx')
  end.

(** [range(n)] for a Python int [n]: empty when [n <= 0]. *)
Definition range (n : Z) : list nat := seq 0 (Z.to_nat n).

End Py.

Notation "'let*' x ':=' c 'in' k" := (Py.bind c (fun x => k))
  (at level 10, x name, c at level 100, k at level 200).

(** ** numpy's global random generator *)

Module Np.

(** The generator: the sequence of draws it will deliver, and how many of
    them have been consumed. numpy's draws lie in [0, 1); here any float may
    be drawn, which covers them. *)
Record RandomState : Type := mkRandomState {
  draws : nat -> float;
  cursor : nat
}.

(** A computation that may raise and that advances the generator. *)
Definition gen (A : Type) : Type := RandomState -> Py.result A * RandomState.

(** [np.random.rand(n)]: the next [n] draws; a negative [n] raises. *)
Definition rand (n : Z) : gen (list float) := fun g =>
  if (n <? 0)%Z then (inl Py.ValueError, g)
  else (inr (map (draws g) (seq (cursor g) (Z.to_nat n))),
        mkRandomState (draws g) (cursor g + Z.to_nat n)).

(** [numpy.zeros(n)] *)
Definition zeros (n : Z) : Py.result (list float) :=
  if (n <? 0)%Z then inl Py.ValueError else inr (repeat 0 (Z.to_nat n)).

End Np.

(** ** class Solution *)

Record Solution : Type := mkSolution {
  dimension : Z;
  lower_bound : float;
  upper_bound : float;
  parameters : list float
}.

(** [Solution.__init__] *)
Definition init (dimension : Z) (lower_bound upper_bound : float) : Py.result Solution :=
  let* zs := Np.zeros dimension in
  inr (mkSolution dimension lower_bound upper_bound zs).

(** [Solution.random_range]:
    [(value_max - value_min) * np.random.rand(n) + value_min], elementwise. *)
Definition random_range (n : Z) (value_min value_max : float) : Np.gen (list float) :=
  fun g =>
    match Np.rand n g with
    | (inl e, g') => (inl e, g')
    | (inr rs, g') => (inr (map (fun r => (value_max - value_min) * r + value_min) rs), g')
    end.

(** ** class BlindSearchSolution *)

(** An element of [best_points]: [(arg[0], arg[1], calculated_value)]. *)
Definition point : Type := (float * float * float)%type.

Definition point_value (p : point) : float := snd p.

(** The variables the search loop updates. *)
Record tracker : Type := mkTracker {
  best_value : float;
  best_points : list point
}.

(** What a completed [solve] leaves behind: the value it returns, the list
    [best_points] at that moment, and the argument of the [visualize] call
    when there was one. *)
Record outcome : Type := mkOutcome {
  returned : float;
  trace : list point;
  visualized : option (list point)
}.

(** Lines 80-81: one [random_range] call per axis, appended in order. *)
Fixpoint draw_axes (axes : list nat) (point_count : Z) (lo hi : float)
    (params : list (list float)) : Np.gen (list (list float)) := fun g =>
  match axes with
  | [] => (inr params, g)
  | _ :: axes' =>
      match random_range point_count lo hi g with
      | (inl e, g') => (inl e, g')
      | (inr column, g') => draw_axes axes' point_count lo hi (params ++ [column]) g'
      end
  end.

(** Lines 88-90: [arg = [param[i] for param in params]]. *)
Definition select_arg (params : list (list float)) (i : nat) : Py.result (list float) :=
  Py.traverse (fun param => Py.getitem param i) params.

(** Lines 88-96: the body of the search loop. *)
Definition solve_step (fnc : list float -> float) (params : list (list float))
    (st : tracker) (i : nat) : Py.result tracker :=
  let* arg := select_arg params i in
  let calculated_value := fnc arg in
  if calculated_value <? best_value st then
    let* a0 := Py.getitem arg 0 in
    let* a1 := Py.getitem arg 1 in
    inr (mkTracker calculated_value (best_points st ++ [(a0, a1, calculated_value)]))
  else inr st.

(** The call [self.visualize(points, fnc)] as its caller sees it: it
    returns, or it raises. It draws the objective over a mesh grid
    ([draw], lines 39-43: [fnc([x_values, y_values])] handed to
    [plot_surface]) and then animates the points; whether that returns
    depends on matplotlib and on what the objective makes of arrays, none of
    which a function from float lists to floats tells. *)
Definition visualizer : Type :=
  Solution -> list point -> (list float -> float) -> Py.result unit.

(** Lines 98-100: with two axes the points are visualized first, and an
    exception of that call is an exception of [solve]; then the best value
    is returned. *)
Definition conclude (visualize : visualizer) (self : Solution)
    (fnc : list float -> float) (st : tracker) : Py.result outcome :=
  if (dimension self =? 2)%Z then
    let* shown := visualize self (best_points st) fnc in
    inr (mkOutcome (best_value st) (best_points st) (Some (best_points st)))
  else inr (mkOutcome (best_value st) (best_points st) None).

(** Lines 84-96: the search loop, from [+infinity] and no point. *)
Definition search (params : list (list float)) (point_count : Z)
    (fnc : list float -> float) : Py.result tracker :=
  Py.for_each (solve_step fnc params) (Py.range point_count) (mkTracker infinity []).

(** Lines 84-100: [solve] from the point where [params] is filled. *)
Definition solve_from (visualize : visualizer) (self : Solution)
    (params : list (list float)) (point_count : Z) (fnc : list float -> float)
  : Py.result outcome :=
  let* st := search params point_count fnc in
  conclude visualize self fnc st.

(** [BlindSearchSolution.solve] *)
Definition solve (visualize : visualizer) (self : Solution) (point_count : Z)
    (fnc : list float -> float) : Np.gen outcome := fun g =>
  match draw_axes (Py.range (dimension self)) point_count
          (lower_bound self) (upper_bound self) [] g with
  | (inl e, g') => (inl e, g')
  | (inr params, g') => (solve_from visualize self params point_count fnc, g')
  end.

(** ** The replay ([visualize], [update_points]) *)

(** Lines 114-116 of [visualize]: [[x[0] for x in points]] and its two
    fellows, the lists handed to the animation as [fargs]. *)
Definition x_values (points : list point) : list float :=
  map (fun x => fst (fst x)) points.

Definition y_values (points : list point) : list float :=
  map (fun x => snd (fst x)) points.

Definition z_values (points : list point) : list float :=
  map (fun x => snd x) points.

(** Line 121: the animation is given [len(points)] as its frames, which
    stands for [range(len(points))]. *)
Definition frames (points : list point) : list nat :=
  Py.range (Z.of_nat (length points)).

(** [Solution.update_points], line 57: the point [(x[frame], y[frame],
    z[frame])] that the new scatter is made of, for a frame number
    [frame >= 0]. The artists ([scatter[0].remove()], [axes.scatter]) and the
    printed line are matplotlib's and the console's, and are not modelled. *)
Definition update_points (frame : nat) (x y z : list float) : Py.result point :=
  let* a := Py.getitem x frame in
  let* b := Py.getitem y frame in
  let* c := Py.getitem z frame in
  inr (a, b, c).

(** ** main.py *)

(** Lines 10-11; [sphere] comes from the module [functions]. The bounds are
    written as the int literals [10] and [-10]; numpy's arithmetic in
    [random_range] takes them as the floats of the same value. *)
Definition main (visualize : visualizer) (sphere : list float -> float)
  : Np.gen outcome := fun g =>
  match init 2 10 (-10) with
  | inl e => (inl e, g)
  | inr solution => solve visualize solution 20000 sphere g
  end.

(** * Vocabulary of the properties *)

(** A list of values in which every element is strictly below all the
    elements before it. *)
Definition decreasing : list float -> Prop :=
  StronglySorted (fun earlier later => (later <? earlier) = true).

Section Vocabulary.

Variable fnc : list float -> float.

(** [p] is the trace entry of the candidate [arg]: its first two coordinates
    and its value. *)
Definition entry_of (arg : list float) (p : point) : Prop :=
  exists a0 a1 rest, arg = a0 :: a1 :: rest /\ p = (a0, a1, fnc arg).

(** What holds of the loop variables once the candidates [seen] have been
    processed, in that order. *)
Record tracked (seen : list (list float)) (st : tracker) : Prop := mkTracked {
  tracked_last :
    best_value st = last (map point_value (best_points st)) infinity;
  tracked_bounded :
    best_value st = infinity \/ (best_value st <? infinity) = true;
  tracked_sorted :
    decreasing (map point_value (best_points st));
  tracked_floor :
    Forall (fun p => forall x, (x <? best_value st) = true ->
                               (x <? point_value p) = true) (best_points st);
  tracked_lower :
    Forall (fun arg => (fnc arg <? best_value st) = false) seen;
  tracked_from :
    Forall (fun p => (point_value p <? infinity) = true /\
                     exists arg, In arg seen /\ entry_of arg p) (best_points st);
  tracked_head :
    forall c0 rest, seen = c0 :: rest -> (fnc c0 <? infinity) = true ->
    exists p0 t, best_points st = p0 :: t /\ entry_of c0 p0
}.

End Vocabulary.

(** The argument lists the loop of [solve] assembles from [params]: [arg]
    for each [i] of [range(point_count)], in order. *)
Definition candidates (params : list (list float)) (point_count : Z)
  : Py.result (list (list float)) :=
  Py.traverse (select_arg params) (Py.range point_count).

(** The candidates of a call of [solve]: the argument lists its loop
    assembles from the columns it has sampled, in the order in which it
    evaluates them; it evaluates them all unless it raises on the way. *)
Definition evaluated (self : Solution) (point_count : Z) (g : Np.RandomState)
  : Py.result (list (list float)) :=
  match draw_axes (Py.range (dimension self)) point_count
          (lower_bound self) (upper_bound self) [] g with
  | (inl e, _) => inl e
  | (inr params, _) => candidates params point_count
  end.

(** The state in which the loop of a call of [solve] ends, or the exception
    that sampling or the loop raises: lines 76-96, before [visualize]. *)
Definition searched (self : Solution) (point_count : Z) (fnc : list float -> float)
    (g : Np.RandomState) : Py.result tracker :=
  match draw_axes (Py.range (dimension self)) point_count
          (lower_bound self) (upper_bound self) [] g with
  | (inl e, _) => inl e
  | (inr params, _) => search params point_count fnc
  end.

(** Lines 92-96 on an assembled [arg]. *)
Definition improve (fnc : list float -> float) (st : tracker) (arg : list float)
  : Py.result tracker :=
  if fnc arg <? best_value st then
    match arg with
    | a0 :: a1 :: _ =>
        inr (mkTracker (fnc arg) (best_points st ++ [(a0, a1, fnc arg)]))
    | _ => inl Py.IndexError
    end
  else inr st.

(** The loop over candidates that are already assembled. *)
Fixpoint scan (fnc : list float -> float) (args : list (list float)) (st : tracker)
  : Py.result tracker :=
  match args with
  | [] => inr st
  | arg :: args' => Py.bind (improve fnc st arg) (scan fnc args')
  end.

(** The lexicographic comparison of exponent and mantissa, as [SFcompare]
    does it for two finite floats of one sign. *)
Definition lex (e1 : Z) (m1 : positive) (e2 : Z) (m2 : positive) : comparison :=
  match (e1 ?= e2)%Z with
  | Lt => Lt
  | Gt => Gt
  | Eq => Pos.compare_cont Eq m1 m2
  end.

(** The value [random_range] makes of the draw [r]. *)
Definition scaled (value_min value_max r : float) : float :=
  (value_max - value_min) * r + value_min.

(** What [solve] makes of the draw of rank [k * point_count + i] after the
    position of the generator [g]: place [i] of the column of axis [k]. *)
Definition sample (self : Solution) (point_count : Z) (g : Np.RandomState)
    (k i : nat) : float :=
  scaled (lower_bound self) (upper_bound self)
    (Np.draws g (Np.cursor g + k * Z.to_nat point_count + i)).

(** One column of [point_count] samples for each axis. *)
Definition sampled_columns (self : Solution) (point_count : Z) (g : Np.RandomState)
  : list (list float) :=
  map (fun k => map (fun i => sample self point_count g k i)
                    (seq 0 (Z.to_nat point_count)))
      (seq 0 (Z.to_nat (dimension self))).

(** The generator [g] after [n] more draws. *)
Definition advanced (g : Np.RandomState) (n : nat) : Np.RandomState :=
  Np.mkRandomState (Np.draws g) (Np.cursor g + n).

(** [arg] sets a record after the candidates [prior]: its value is strictly
    below [+infinity] and strictly below the value of every candidate of
    [prior] whose value is not NaN. *)
Definition improves_on (fnc : list float -> float) (prior : list (list float))
    (arg : list float) : bool :=
  (fnc arg <? infinity) &&
  forallb (fun u => is_nan (fnc u) || (fnc arg <? fnc u)) prior.

(** The candidates of [cands] that set a record, in order, [prior] having
    been evaluated before them. *)
Fixpoint records (fnc : list float -> float) (prior cands : list (list float))
  : list (list float) :=
  match cands with
  | [] => []
  | c :: cands' =>
      if improves_on fnc prior c then c :: records fnc (prior ++ [c]) cands'
      else records fnc (prior ++ [c]) cands'
  end.

(** * Concrete inputs *)

(** A generator whose every draw is [0.5]. *)
Definition halves : Np.RandomState := Np.mkRandomState (fun _ => 0.5) 0.

(** [BlindSearchSolution(2, -10, 10)] *)
Definition square : Solution := mkSolution 2 (-10) 10 [0; 0].

(** [BlindSearchSolution(3, -10, 10)]: with three axes [solve] does not call
    [visualize]. *)
Definition cube : Solution := mkSolution 3 (-10) 10 [0; 0; 0].

(** [BlindSearchSolution(1, 0, 10)] *)
Definition segment : Solution := mkSolution 1 0 10 [0].

(** The objective that returns [c] at every argument. *)
Definition constantly (c : float) (arg : list float) : float := c.

(** The objective that returns the first coordinate of its argument; on a
    vector of one coordinate it is the identity. *)
Definition first_coordinate (arg : list float) : float := hd nan arg.

(** [BlindSearchSolution(2, 10, -10)], the object [main] builds. *)
Definition reversed : Solution := mkSolution 2 10 (-10) [0; 0].

(** [BlindSearchSolution(3, 10, -10)] *)
Definition reversed_cube : Solution := mkSolution 3 10 (-10) [0; 0; 0].

(** A generator whose draws are 0.75, 0.5, and 0.25 from then on. *)
Definition descending : Np.RandomState :=
  Np.mkRandomState
    (fun n => match n with O => 0.75 | S O => 0.5 | _ => 0.25 end) 0.

(** A [visualize] call that returns, and one that raises. *)
Definition returning : visualizer := fun _ _ _ => inr tt.

Definition raising : visualizer := fun _ _ _ => inl Py.AttributeError.

(** * The order of binary64 floats

    Facts about [<], [<=] and NaN, derived from the IEEE 754 specification
    of the primitive operations ([SFcompare] on [spec_float]). *)

Module FloatOrder.

Lemma SFcompare_antisym (x y : spec_float) :
  SFcompare y x = option_map CompOpp (SFcompare x y).
Proof.
  destruct x as [sx|sx| |sx mx ex], y as [sy|sy| |sy my ey]; simpl;
    try destruct sx; try destruct sy; try reflexivity.
  - rewrite (Z.compare_antisym ex ey).
    destruct (ex ?= ey)%Z; simpl; try reflexivity.
    now rewrite (Pos.compare_cont_antisym mx my Eq).
  - rewrite (Z.compare_antisym ex ey).
    destruct (ex ?= ey)%Z; simpl; try reflexivity.
    now rewrite (Pos.compare_cont_antisym mx my Eq).
Qed.

Lemma SFcompare_refl (x : spec_float) :
  x <> S754_nan -> SFcompare x x = Some Eq.
Proof.
  destruct x as [s|s| |s m e]; simpl; intros Hx;
    try destruct s; try reflexivity; try (now elim Hx);
    rewrite Z.compare_refl; fold (Pos.compare m m); now rewrite Pos.compare_refl.
Qed.

Lemma lex_Lt e1 m1 e2 m2 :
  lex e1 m1 e2 m2 = Lt <-> (e1 < e2 \/ (e1 = e2 /\ Z.pos m1 < Z.pos m2))%Z.
Proof.
  unfold lex. fold (Pos.compare m1 m2).
  destruct (Z.compare_spec e1 e2), (Pos.compare_spec m1 m2); split;
    intros; try discriminate; try reflexivity; subst; lia.
Qed.

Lemma lex_Gt e1 m1 e2 m2 :
  lex e1 m1 e2 m2 = Gt <-> (e2 < e1 \/ (e1 = e2 /\ Z.pos m2 < Z.pos m1))%Z.
Proof.
  unfold lex. fold (Pos.compare m1 m2).
  destruct (Z.compare_spec e1 e2), (Pos.compare_spec m1 m2); split;
    intros; try discriminate; try reflexivity; subst; lia.
Qed.

Lemma SFltb_finite s1 m1 e1 s2 m2 e2 :
  SFltb (S754_finite s1 m1 e1) (S754_finite s2 m2 e2) =
  match s1, s2 with
  | true, false => true
  | false, true => false
  | false, false => match lex e1 m1 e2 m2 with Lt => true | _ => false end
  | true, true => match lex e1 m1 e2 m2 with Gt => true | _ => false end
  end.
Proof.
  unfold SFltb, lex; simpl. destruct s1, s2; try reflexivity.
  - destruct (e1 ?= e2)%Z; try reflexivity. now destruct (Pos.compare_cont Eq m1 m2).
Qed.

Lemma SFltb_trans (x y z : spec_float) :
  SFltb x y = true -> SFltb y z = true -> SFltb x z = true.
Proof.
  destruct x as [sx|sx| |sx mx ex], y as [sy|sy| |sy my ey], z as [sz|sz| |sz mz ez];
    rewrite ?SFltb_finite;
    try (unfold SFltb; simpl;
         try destruct sx; try destruct sy; try destruct sz;
         simpl; congruence).
  destruct sx, sy, sz; try congruence.
  - destruct (lex ex mx ey my) eqn:H1; try discriminate.
    destruct (lex ey my ez mz) eqn:H2; try discriminate.
    apply lex_Gt in H1, H2.
    assert (H3 : lex ex mx ez mz = Gt) by (apply lex_Gt; lia).
    now rewrite H3.
  - destruct (lex ex mx ey my) eqn:H1; try discriminate.
    destruct (lex ey my ez mz) eqn:H2; try discriminate.
    apply lex_Lt in H1, H2.
    assert (H3 : lex ex mx ez mz = Lt) by (apply lex_Lt; lia).
    now rewrite H3.
Qed.

Lemma is_nan_spec (x : float) : is_nan x = true <-> Prim2SF x = S754_nan.
Proof.
  unfold is_nan. rewrite eqb_spec. unfold SFeqb. split.
  - intros H. destruct (Prim2SF x) eqn:E; trivial;
      rewrite SFcompare_refl in H by discriminate; discriminate.
  - intros ->. reflexivity.
Qed.

Lemma ltb_trans (x y z : float) :
  (x <? y) = true -> (y <? z) = true -> (x <? z) = true.
Proof. rewrite !ltb_spec. apply SFltb_trans. Qed.

Lemma ltb_nan_l (x y : float) : is_nan x = true -> (x <? y) = false.
Proof. rewrite is_nan_spec, ltb_spec. intros ->. reflexivity. Qed.

Lemma eqb_not_ltb (x y : float) : (x =? y) = true -> (x <? y) = false.
Proof.
  rewrite eqb_spec, ltb_spec. unfold SFeqb, SFltb.
  now destruct (SFcompare (Prim2SF x) (Prim2SF y)) as [[]|].
Qed.

Lemma ltb_irrefl (x : float) : (x <? x) = false.
Proof.
  destruct (is_nan x) eqn:E.
  - now apply ltb_nan_l.
  - apply eqb_not_ltb. unfold is_nan in E. now destruct (x =? x).
Qed.

(** Two floats that are not NaN are comparable. *)
Lemma not_ltb_leb (x y : float) :
  is_nan x = false -> is_nan y = false -> (x <? y) = false -> (y <=? x) = true.
Proof.
  intros Hx Hy. rewrite ltb_spec, leb_spec. unfold SFltb, SFleb.
  rewrite (SFcompare_antisym (Prim2SF x) (Prim2SF y)).
  assert (Px : Prim2SF x <> S754_nan)
    by (intros E; apply is_nan_spec in E; congruence).
  assert (Py : Prim2SF y <> S754_nan)
    by (intros E; apply is_nan_spec in E; congruence).
  destruct (SFcompare (Prim2SF x) (Prim2SF y)) as [[]|] eqn:E; simpl; try congruence.
  destruct (Prim2SF x), (Prim2SF y); simpl in E; congruence.
Qed.



(** Two floats that compare equal compare alike with any third. *)
Lemma SFcompare_Eq_r (x y z : spec_float) :
  SFcompare y z = Some Eq -> SFcompare x y = SFcompare x z.
Proof.
  destruct y as [sy|sy| |sy my ey], z as [sz|sz| |sz mz ez]; simpl;
    try destruct sy; try destruct sz; try discriminate; trivial;
    try (now destruct x as [sx|sx| |sx mx ex]).
  - intros H. fold (Pos.compare my mz) in H.
    assert (E : ey = ez /\ my = mz)
      by (destruct (Z.compare_spec ey ez), (Pos.compare_spec my mz);
          simpl in H; try discriminate; auto).
    destruct E; subst. reflexivity.
  - intros H. fold (Pos.compare my mz) in H.
    assert (E : ey = ez /\ my = mz)
      by (destruct (Z.compare_spec ey ez), (Pos.compare_spec my mz);
          simpl in H; try discriminate; auto).
    destruct E; subst. reflexivity.
Qed.

Lemma ltb_leb_trans (x y z : float) :
  (x <? y) = true -> (y <=? z) = true -> (x <? z) = true.
Proof.
  rewrite leb_spec. unfold SFleb.
  destruct (SFcompare (Prim2SF y) (Prim2SF z)) as [[]|] eqn:E; try discriminate.
  - rewrite !ltb_spec. unfold SFltb.
    now rewrite (SFcompare_Eq_r (Prim2SF x) _ _ E).
  - intros Hxy _. apply (ltb_trans x y z Hxy).
    rewrite ltb_spec. unfold SFltb. now rewrite E.
Qed.

(** No float is strictly above [+infinity]. *)
Lemma infinity_ltb (x : float) : (infinity <? x) = false.
Proof.
  rewrite ltb_spec. change (Prim2SF infinity) with (S754_infinity false).
  unfold SFltb. now destruct (Prim2SF x) as [s|[]| |s m e].
Qed.

(** Two floats that are not NaN, neither strictly below the other, are
    equal for [==]. *)
Lemma not_ltb_eqb (x y : float) :
  is_nan x = false -> is_nan y = false ->
  (x <? y) = false -> (y <? x) = false -> (x =? y) = true.
Proof.
  intros Hx Hy. rewrite !ltb_spec, eqb_spec. unfold SFltb, SFeqb.
  rewrite (SFcompare_antisym (Prim2SF x) (Prim2SF y)).
  assert (Px : Prim2SF x <> S754_nan)
    by (intros E; apply is_nan_spec in E; congruence).
  assert (Py : Prim2SF y <> S754_nan)
    by (intros E; apply is_nan_spec in E; congruence).
  destruct (SFcompare (Prim2SF x) (Prim2SF y)) as [[]|] eqn:E; simpl; try congruence.
  destruct (Prim2SF x), (Prim2SF y); simpl in E; congruence.
Qed.

End FloatOrder.

(** * The search loop *)

Section Loop.

Variable fnc : list float -> float.
Variable params : list (list float).

Lemma traverse_length {A B : Type} (f : A -> Py.result B) (xs : list A) (ys : list B) :
  Py.traverse f xs = inr ys -> length ys = length xs.
Proof.
  revert ys. induction xs as [|x xs IH]; simpl; intros ys H.
  - now inversion H.
  - destruct (f x) as [e|y]; simpl in H; try discriminate.
    destruct (Py.traverse f xs) as [e|ys']; simpl in H; try discriminate.
    inversion H; subst. simpl. f_equal. now apply IH.
Qed.

Lemma select_arg_length (i : nat) (arg : list float) :
  select_arg params i = inr arg -> length arg = length params.
Proof. apply traverse_length. Qed.

(** The loop body once [arg] is assembled. *)
Lemma solve_step_unfold (st : tracker) (i : nat) (arg : list float) :
  select_arg params i = inr arg ->
  solve_step fnc params st i =
  if fnc arg <? best_value st then
    match arg with
    | a0 :: a1 :: _ =>
        inr (mkTracker (fnc arg) (best_points st ++ [(a0, a1, fnc arg)]))
    | _ => inl Py.IndexError
    end
  else inr st.
Proof.
  intros H. unfold solve_step. rewrite H. simpl.
  destruct (fnc arg <? best_value st); trivial.
  now destruct arg as [|a0 [|a1 rest]].
Qed.

Lemma tracked_init : tracked fnc [] (mkTracker infinity []).
Proof.
  constructor; simpl; auto.
  - constructor.
  - intros; discriminate.
Qed.

Lemma tracked_nil (st : tracker) :
  tracked fnc [] st -> st = mkTracker infinity [].
Proof.
  intros [Hlast _ _ _ _ Hfrom _]. destruct st as [b [|p t]]; simpl in *.
  - now subst.
  - inversion Hfrom as [|? ? [_ [arg [[] _]]] _].
Qed.

Lemma decreasing_snoc (vs : list float) (v : float) :
  decreasing vs -> Forall (fun u => (v <? u) = true) vs -> decreasing (vs ++ [v]).
Proof.
  unfold decreasing. induction 1 as [|u vs Hs IH Hu]; intros Hv; simpl.
  - repeat constructor.
  - inversion Hv; subst. constructor.
    + now apply IH.
    + apply Forall_app. split; auto.
Qed.

Lemma last_snoc {A : Type} (xs : list A) (x d : A) : last (xs ++ [x]) d = x.
Proof. apply last_last. Qed.

(** One iteration keeps the invariant. *)
Lemma tracked_step (seen : list (list float)) (st st' : tracker) (i : nat)
    (arg : list float) :
  tracked fnc seen st ->
  select_arg params i = inr arg ->
  solve_step fnc params st i = inr st' ->
  tracked fnc (seen ++ [arg]) st'.
Proof.
  intros T Harg Hstep. rewrite (solve_step_unfold st i arg Harg) in Hstep.
  destruct (fnc arg <? best_value st) eqn:Hlt.
  - (* a new best *)
    destruct arg as [|a0 [|a1 rest]]; try discriminate.
    set (c := a0 :: a1 :: rest) in *.
    inversion Hstep; subst st'; clear Hstep.
    assert (Hc : entry_of fnc c (a0, a1, fnc c)) by (exists a0, a1, rest; auto).
    assert (Hinf : (fnc c <? infinity) = true).
    { destruct (tracked_bounded _ _ _ T) as [E|E].
      - now rewrite <- E.
      - eapply FloatOrder.ltb_trans; eauto. }
    constructor; simpl.
    + rewrite map_app. simpl map. now rewrite last_snoc.
    + now right.
    + rewrite map_app. simpl map. apply decreasing_snoc.
      * apply (tracked_sorted _ _ _ T).
      * apply Forall_map. eapply Forall_impl; [|apply (tracked_floor _ _ _ T)].
        intros p Hp. now apply Hp.
    + apply Forall_app. split.
      * eapply Forall_impl; [|apply (tracked_floor _ _ _ T)].
        intros p Hp x Hx. apply Hp. eapply FloatOrder.ltb_trans; eauto.
      * repeat constructor. intros x Hx. exact Hx.
    + apply Forall_app. split.
      * eapply Forall_impl; [|apply (tracked_lower _ _ _ T)].
        intros a Ha. simpl in Ha. destruct (fnc a <? fnc c) eqn:E; trivial.
        rewrite <- Ha. symmetry. eapply FloatOrder.ltb_trans; eauto.
      * repeat constructor. apply FloatOrder.ltb_irrefl.
    + apply Forall_app. split.
      * eapply Forall_impl; [|apply (tracked_from _ _ _ T)].
        intros p [Hp [a [Ha Hpa]]]. split; trivial.
        exists a. split; trivial. apply in_or_app. now left.
      * repeat constructor; trivial.
        exists c. split; trivial. apply in_or_app. right. now left.
    + intros c0 rest0 Hseen Hc0. destruct seen as [|s seen'].
      * simpl in Hseen. inversion Hseen; subst c0 rest0.
        rewrite (tracked_nil _ T). simpl. eauto.
      * simpl in Hseen. inversion Hseen; subst s rest0.
        destruct (tracked_head _ _ _ T c0 seen' eq_refl Hc0) as [p0 [t [Ht Hp0]]].
        rewrite Ht. simpl. eauto.
  - (* no improvement *)
    inversion Hstep; subst st'; clear Hstep.
    destruct T as [Hlast Hb Hs Hfl Hlo Hfr Hhd]. constructor; trivial.
    + apply Forall_app. split; trivial. repeat constructor. exact Hlt.
    + eapply Forall_impl; [|exact Hfr].
      intros p [Hp [a [Ha Hpa]]]. split; trivial.
      exists a. split; trivial. apply in_or_app. now left.
    + intros c0 rest0 Hseen Hc0. destruct seen as [|s seen'].
      * simpl in Hseen. inversion Hseen; subst c0 rest0.
        assert (E : st = mkTracker infinity []).
        { apply tracked_nil. constructor; trivial. }
        subst st. simpl in Hlt. congruence.
      * simpl in Hseen. inversion Hseen; subst s rest0.
        apply (Hhd c0 seen' eq_refl Hc0).
Qed.

(** The whole loop keeps it. *)
Lemma tracked_for_each (idx : list nat) :
  forall (seen args : list (list float)) (st st' : tracker),
  tracked fnc seen st ->
  Py.traverse (select_arg params) idx = inr args ->
  Py.for_each (solve_step fnc params) idx st = inr st' ->
  tracked fnc (seen ++ args) st'.
Proof.
  induction idx as [|i idx IH]; simpl; intros seen args st st' T Hargs Hrun.
  - inversion Hargs; inversion Hrun; subst. now rewrite app_nil_r.
  - destruct (select_arg params i) as [e|arg] eqn:Harg; simpl in Hargs; try discriminate.
    destruct (Py.traverse (select_arg params) idx) as [e|args'] eqn:Htl;
      simpl in Hargs; try discriminate.
    inversion Hargs; subst args; clear Hargs.
    destruct (solve_step fnc params st i) as [e|st1] eqn:Hstep; simpl in Hrun;
      try discriminate.
    replace (seen ++ arg :: args') with ((seen ++ [arg]) ++ args')
      by (now rewrite <- app_assoc).
    eapply IH; eauto. eapply tracked_step; eauto.
Qed.

(** With two axes or more the loop raises nothing. *)
Lemma for_each_completes (idx : list nat) :
  forall (args : list (list float)) (st : tracker),
  2 <= length params ->
  Py.traverse (select_arg params) idx = inr args ->
  exists st', Py.for_each (solve_step fnc params) idx st = inr st'.
Proof.
  induction idx as [|i idx IH]; simpl; intros args st Hdim Hargs.
  - eauto.
  - destruct (select_arg params i) as [e|arg] eqn:Harg; simpl in Hargs; try discriminate.
    destruct (Py.traverse (select_arg params) idx) as [e|args'] eqn:Htl;
      simpl in Hargs; try discriminate.
    rewrite (solve_step_unfold st i arg Harg).
    apply select_arg_length in Harg.
    destruct arg as [|a0 [|a1 rest]]; simpl in Harg; try lia.
    destruct (fnc (a0 :: a1 :: rest) <? best_value st); simpl; eapply IH; eauto.
Qed.

End Loop.

(** * Sampling *)

Section Sampling.

Lemma random_range_ok (n : Z) (lo hi : float) (g : Np.RandomState) :
  (0 <= n)%Z ->
  exists column g',
    random_range n lo hi g = (inr column, g') /\ length column = Z.to_nat n.
Proof.
  intros Hn. unfold random_range, Np.rand.
  destruct (Z.ltb_spec n 0); try lia.
  eexists; eexists; split; [reflexivity|].
  now rewrite !length_map, length_seq.
Qed.

Lemma random_range_negative (n : Z) (lo hi : float) (g : Np.RandomState) :
  (n < 0)%Z -> random_range n lo hi g = (inl Py.ValueError, g).
Proof.
  intros Hn. unfold random_range, Np.rand.
  now destruct (Z.ltb_spec n 0); try lia.
Qed.

Lemma draw_axes_ok (axes : list nat) (point_count : Z) (lo hi : float) :
  (0 <= point_count)%Z ->
  forall (acc : list (list float)) (g : Np.RandomState),
  exists columns g',
    draw_axes axes point_count lo hi acc g = (inr (acc ++ columns), g') /\
    length columns = length axes /\
    Forall (fun column => length column = Z.to_nat point_count) columns.
Proof.
  intros Hn. induction axes as [|x axes IH]; intros acc g; simpl.
  - exists [], g. rewrite app_nil_r. auto.
  - destruct (random_range_ok point_count lo hi g Hn) as [column [g1 [E L]]].
    rewrite E. destruct (IH (acc ++ [column]) g1) as [columns [g2 [E2 [L2 F2]]]].
    exists (column :: columns), g2. rewrite E2, <- app_assoc. simpl. auto.
Qed.

Lemma select_arg_ok (params : list (list float)) (i : nat) :
  Forall (fun column => i < length column) params ->
  exists arg, select_arg params i = inr arg.
Proof.
  unfold select_arg. induction 1 as [|column params Hi _ [arg IH]]; simpl.
  - eauto.
  - destruct (Py.getitem column i) as [e|x] eqn:E.
    + unfold Py.getitem in E. destruct (nth_error column i) eqn:E'; try discriminate.
      apply nth_error_None in E'. lia.
    + simpl. rewrite IH. simpl. eauto.
Qed.

Lemma traverse_select_ok (params : list (list float)) (n : nat) (idx : list nat) :
  Forall (fun column => length column = n) params ->
  Forall (fun i => i < n) idx ->
  exists cands, Py.traverse (select_arg params) idx = inr cands.
Proof.
  intros Hp. induction 1 as [|i idx Hi _ [cands IH]]; simpl.
  - eauto.
  - destruct (select_arg_ok params i) as [arg E].
    + eapply Forall_impl; [|exact Hp]. simpl. intros column L. lia.
    + rewrite E, IH. simpl. eauto.
Qed.

Lemma candidates_ok (params : list (list float)) (point_count : Z) :
  Forall (fun column => length column = Z.to_nat point_count) params ->
  exists cands,
    candidates params point_count = inr cands /\
    length cands = Z.to_nat point_count.
Proof.
  intros Hp. unfold candidates.
  destruct (traverse_select_ok params (Z.to_nat point_count) (Py.range point_count) Hp)
    as [cands E].
  - unfold Py.range. apply Forall_forall. intros i Hi. apply in_seq in Hi. lia.
  - exists cands. split; trivial.
    apply traverse_length in E. unfold Py.range in E. now rewrite length_seq in E.
Qed.

(** [solve] samples [dimension] columns of [point_count] draws and runs the
    loop on them. *)
Lemma solve_sampled (visualize : visualizer) (self : Solution) (point_count : Z)
    (fnc : list float -> float) (g : Np.RandomState) :
  (0 <= point_count)%Z ->
  exists params cands g',
    length params = Z.to_nat (dimension self) /\
    candidates params point_count = inr cands /\
    length cands = Z.to_nat point_count /\
    evaluated self point_count g = inr cands /\
    searched self point_count fnc g = search params point_count fnc /\
    solve visualize self point_count fnc g =
      (solve_from visualize self params point_count fnc, g').
Proof.
  intros Hn. unfold solve, evaluated, searched.
  destruct (draw_axes_ok (Py.range (dimension self)) point_count
              (lower_bound self) (upper_bound self) Hn [] g)
    as [params [g' [E [L F]]]].
  simpl in E. rewrite E.
  destruct (candidates_ok params point_count F) as [cands [Ec Lc]].
  exists params, cands, g'. repeat split; trivial.
  unfold Py.range in L. now rewrite length_seq in L.
Qed.

(** With two axes or more, the loop of [solve] completes, in a state that
    [tracked] describes, and [solve] ends as lines 98-100 go from there. *)
Lemma solve_tracked (visualize : visualizer) (self : Solution) (point_count : Z)
    (fnc : list float -> float) (g : Np.RandomState) :
  (2 <= dimension self)%Z -> (0 <= point_count)%Z ->
  exists cands st,
    evaluated self point_count g = inr cands /\
    length cands = Z.to_nat point_count /\
    searched self point_count fnc g = inr st /\
    fst (solve visualize self point_count fnc g) = conclude visualize self fnc st /\
    tracked fnc cands st.
Proof.
  intros Hd Hn.
  destruct (solve_sampled visualize self point_count fnc g Hn)
    as [params [cands [g' [Lp [Ec [Lc [Ev [Eq Es]]]]]]]].
  assert (H2 : 2 <= length params) by lia.
  destruct (for_each_completes fnc params (Py.range point_count) cands
              (mkTracker infinity []) H2 Ec) as [st Hrun].
  exists cands, st. split; [|split; [|split; [|split]]]; trivial.
  - now rewrite Eq.
  - rewrite Es. simpl. unfold solve_from, search. now rewrite Hrun.
  - apply (tracked_for_each fnc params (Py.range point_count) [] cands
             (mkTracker infinity []) st (tracked_init fnc) Ec Hrun).
Qed.

End Sampling.

(** * Consequences of the invariant *)

Section Consequences.

Variable fnc : list float -> float.

Lemma entry_of_value (arg : list float) (p : point) :
  entry_of fnc arg p -> point_value p = fnc arg.
Proof. intros [a0 [a1 [rest [_ ->]]]]. reflexivity. Qed.

(** Either nothing was appended and the best value is still [+infinity], or
    the best value is the value of the entry appended last. *)
Lemma tracked_cases (seen : list (list float)) (st : tracker) :
  tracked fnc seen st ->
  (best_points st = [] /\ best_value st = infinity) \/
  (exists t p arg, best_points st = t ++ [p] /\ best_value st = point_value p /\
                   In arg seen /\ entry_of fnc arg p).
Proof.
  intros T. pose proof (tracked_last _ _ _ T) as Hlast.
  pose proof (tracked_from _ _ _ T) as Hfrom.
  destruct (best_points st) as [|q t] eqn:E.
  - left. auto.
  - right. destruct (exists_last (l := q :: t)) as [t' [p Ep]]; [discriminate|].
    rewrite Ep in *. rewrite map_app in Hlast. simpl map in Hlast.
    rewrite last_snoc in Hlast.
    apply Forall_app in Hfrom. destruct Hfrom as [_ Hp].
    inversion Hp as [|? ? [_ [arg [Hin Harg]]] _]; subst.
    exists t', p, arg. auto.
Qed.

Lemma tracked_not_nan (seen : list (list float)) (st : tracker) :
  tracked fnc seen st -> is_nan (best_value st) = false.
Proof.
  intros T. destruct (tracked_bounded _ _ _ T) as [E|E].
  - now rewrite E.
  - destruct (is_nan (best_value st)) eqn:N; trivial.
    now rewrite (FloatOrder.ltb_nan_l _ infinity N) in E.
Qed.

Lemma tracked_empty_iff (seen : list (list float)) (st : tracker) :
  tracked fnc seen st ->
  best_points st = [] <-> Forall (fun arg => (fnc arg <? infinity) = false) seen.
Proof.
  intros T. split.
  - intros E. pose proof (tracked_last _ _ _ T) as Hlast.
    rewrite E in Hlast. simpl in Hlast. rewrite <- Hlast.
    apply (tracked_lower _ _ _ T).
  - intros Hall. pose proof (tracked_from _ _ _ T) as Hfrom.
    destruct (best_points st) as [|p t]; trivial.
    inversion Hfrom as [|? ? [Hp [arg [Hin Harg]]] _]; subst.
    rewrite (entry_of_value _ _ Harg) in Hp.
    rewrite Forall_forall in Hall. now rewrite (Hall arg Hin) in Hp.
Qed.

End Consequences.


(** * The best value as a minimum *)

(** C1, as stated, fails: in three dimensions, on an objective that is NaN,
    [solve] returns [+infinity], which is not [<=] the evaluated value; and
    in one dimension [solve] raises on the first candidate, so that no value
    is returned. Neither run reaches [visualize]. *)
Lemma best_value_not_below_nan :
  ((1 <= dimension cube)%Z /\ (lower_bound cube <? upper_bound cube) = true /\
   evaluated cube 1 halves = inr [[0; 0; 0]] /\
   (forall visualize,
      fst (solve visualize cube 1 (constantly nan) halves)
      = inr (mkOutcome infinity [] None)) /\
   (infinity <=? constantly nan [0; 0; 0]) = false) /\
  ((1 <= dimension segment)%Z /\ (lower_bound segment <? upper_bound segment) = true /\
   evaluated segment 1 halves = inr [[5]] /\
   (forall visualize,
      fst (solve visualize segment 1 first_coordinate halves) = inl Py.IndexError)).
Proof. repeat split; try reflexivity; vm_compute; congruence. Qed.

(** C1, amended: with two axes or more and at least one sample, sampling and
    the search loop complete, with a best value that is [<=] the value of
    every evaluated candidate whose value is not NaN, that no evaluated value
    is strictly below, and that is [+infinity] or the value of an evaluated
    candidate. [solve] returns that value; with two axes it calls
    [visualize] before, and raises what that call raises. *)
Theorem best_value_is_minimum (visualize : visualizer) (self : Solution)
    (point_count : Z) (fnc : list float -> float) (g : Np.RandomState) :
  (2 <= dimension self)%Z -> (1 <= point_count)%Z ->
  exists cands st,
    evaluated self point_count g = inr cands /\
    length cands = Z.to_nat point_count /\
    searched self point_count fnc g = inr st /\
    fst (solve visualize self point_count fnc g) = conclude visualize self fnc st /\
    Forall (fun arg => (fnc arg <? best_value st) = false /\
                       (is_nan (fnc arg) = false -> (best_value st <=? fnc arg) = true))
           cands /\
    (best_value st = infinity \/ In (best_value st) (map fnc cands)).
Proof.
  intros Hd Hn.
  destruct (solve_tracked visualize self point_count fnc g Hd)
    as [cands [st [Ev [L [Eq [Es T]]]]]]; [lia|].
  exists cands, st. split; [exact Ev|]. split; [exact L|]. split; [exact Eq|].
  split; [exact Es|]. split.
  - eapply Forall_impl; [|apply (tracked_lower _ _ _ T)].
    intros arg Hlt. simpl in Hlt. split; trivial. intros Hnan.
    apply FloatOrder.not_ltb_leb; trivial. apply (tracked_not_nan fnc cands st T).
  - destruct (tracked_cases fnc cands st T) as [[_ E]|[t [p [arg [_ [E [Hin Harg]]]]]]].
    + now left.
    + right. rewrite E, (entry_of_value fnc arg p Harg). now apply in_map.
Qed.

Lemma best_value_is_minimum_witness :
  exists cands st,
    evaluated cube 3 descending = inr cands /\
    length cands = Z.to_nat 3 /\
    searched cube 3 first_coordinate descending = inr st /\
    fst (solve raising cube 3 first_coordinate descending)
      = inr (mkOutcome (best_value st) (best_points st) None) /\
    Forall (fun arg => (first_coordinate arg <? best_value st) = false /\
                       (is_nan (first_coordinate arg) = false ->
                        (best_value st <=? first_coordinate arg) = true))
           cands /\
    (best_value st = infinity \/ In (best_value st) (map first_coordinate cands)).
Proof.
  apply (best_value_is_minimum raising cube 3 first_coordinate descending); simpl; lia.
Defined.

(** * The improving trace *)

(** C2, as stated, fails: in three dimensions, on an objective that is
    [+infinity], the first evaluated point is not appended and the trace is
    empty; and in one dimension [solve] raises when it appends the first
    point. Neither run reaches [visualize]. *)
Lemma trace_empty_on_infinity :
  ((1 <= dimension cube)%Z /\ (lower_bound cube <? upper_bound cube) = true /\
   evaluated cube 1 halves = inr [[0; 0; 0]] /\
   (forall visualize,
      fst (solve visualize cube 1 (constantly infinity) halves)
      = inr (mkOutcome infinity [] None))) /\
  ((1 <= dimension segment)%Z /\ (lower_bound segment <? upper_bound segment) = true /\
   (forall visualize,
      fst (solve visualize segment 1 (constantly 7) halves) = inl Py.IndexError)).
Proof. repeat split; try reflexivity; vm_compute; congruence. Qed.

(** C2, amended: with two axes or more and at least one sample, sampling and
    the search loop complete, and in the trace they leave the values are
    strictly decreasing in append order; the first evaluated point is the
    first entry of the trace whenever its value is strictly below
    [+infinity]; and the trace is empty exactly when no evaluated value is
    strictly below [+infinity]. [solve] ends with that trace; with two axes
    it hands it to [visualize], and raises what that call raises. *)
Theorem trace_strictly_decreasing (visualize : visualizer) (self : Solution)
    (point_count : Z) (fnc : list float -> float) (g : Np.RandomState) :
  (2 <= dimension self)%Z -> (1 <= point_count)%Z ->
  exists c0 rest st,
    evaluated self point_count g = inr (c0 :: rest) /\
    searched self point_count fnc g = inr st /\
    fst (solve visualize self point_count fnc g) = conclude visualize self fnc st /\
    decreasing (map point_value (best_points st)) /\
    ((fnc c0 <? infinity) = true ->
     exists p0 t, best_points st = p0 :: t /\ entry_of fnc c0 p0) /\
    (best_points st = [] <->
     Forall (fun arg => (fnc arg <? infinity) = false) (c0 :: rest)).
Proof.
  intros Hd Hn.
  destruct (solve_tracked visualize self point_count fnc g Hd)
    as [cands [st [Ev [L [Eq [Es T]]]]]]; [lia|].
  destruct cands as [|c0 rest]; [simpl in L; lia|].
  exists c0, rest, st. split; [exact Ev|]. split; [exact Eq|]. split; [exact Es|].
  split; [|split].
  - apply (tracked_sorted _ _ _ T).
  - intros H0. apply (tracked_head _ _ _ T c0 rest eq_refl H0).
  - apply (tracked_empty_iff fnc _ st T).
Qed.

Lemma trace_strictly_decreasing_witness :
  exists c0 rest st,
    evaluated cube 3 descending = inr (c0 :: rest) /\
    searched cube 3 first_coordinate descending = inr st /\
    fst (solve raising cube 3 first_coordinate descending)
      = inr (mkOutcome (best_value st) (best_points st) None) /\
    decreasing (map point_value (best_points st)) /\
    ((first_coordinate c0 <? infinity) = true ->
     exists p0 t, best_points st = p0 :: t /\ entry_of first_coordinate c0 p0) /\
    (best_points st = [] <->
     Forall (fun arg => (first_coordinate arg <? infinity) = false) (c0 :: rest)).
Proof.
  apply (trace_strictly_decreasing raising cube 3 first_coordinate descending);
    simpl; lia.
Defined.

(** C3, as stated, fails: when no evaluated value is below [+infinity] (here
    the objective is NaN) the trace that [solve] leaves is empty, so that it
    has no last entry, while the returned value is [+infinity]. With three
    axes the run does not reach [visualize]. *)
Lemma best_value_without_last_entry :
  (1 <= dimension cube)%Z /\ (lower_bound cube <? upper_bound cube) = true /\
  forall visualize,
  exists out,
    fst (solve visualize cube 2 (constantly nan) halves) = inr out /\
    returned out = infinity /\
    ~ (exists t p, trace out = t ++ [p] /\ returned out = point_value p).
Proof.
  split; [|split]; [vm_compute; congruence | reflexivity |].
  intros visualize. exists (mkOutcome infinity [] None).
  split; [reflexivity|]. split; [reflexivity|].
  intros [t [p [E _]]]. simpl in E. now destruct t.
Qed.

(** C3, amended: with two axes or more, sampling and the search loop
    complete, and the best value they end with is the value of the last
    entry of the trace when the trace is not empty, and [+infinity] when it
    is empty. [solve] returns that value and ends with that trace; with two
    axes it calls [visualize] before, and raises what that call raises. *)
Theorem best_value_is_last_entry (visualize : visualizer) (self : Solution)
    (point_count : Z) (fnc : list float -> float) (g : Np.RandomState) :
  (2 <= dimension self)%Z -> (1 <= point_count)%Z ->
  exists st,
    searched self point_count fnc g = inr st /\
    fst (solve visualize self point_count fnc g) = conclude visualize self fnc st /\
    ((best_points st = [] /\ best_value st = infinity) \/
     (exists t p, best_points st = t ++ [p] /\ best_value st = point_value p)).
Proof.
  intros Hd Hn.
  destruct (solve_tracked visualize self point_count fnc g Hd)
    as [cands [st [Ev [L [Eq [Es T]]]]]]; [lia|].
  exists st. split; [exact Eq|]. split; [exact Es|].
  destruct (tracked_cases fnc cands st T) as [H|[t [p [arg [E [Hp _]]]]]].
  - now left.
  - right. eauto.
Qed.

Lemma best_value_is_last_entry_witness :
  exists st,
    searched cube 3 first_coordinate descending = inr st /\
    fst (solve raising cube 3 first_coordinate descending)
      = inr (mkOutcome (best_value st) (best_points st) None) /\
    ((best_points st = [] /\ best_value st = infinity) \/
     (exists t p, best_points st = t ++ [p] /\ best_value st = point_value p)).
Proof.
  apply (best_value_is_last_entry raising cube 3 first_coordinate descending);
    simpl; lia.
Defined.

(** * The scenario with candidates 5, 3, 8, 1, 9 *)

(** C4, as stated, fails: with one axis holding 5, 3, 8, 1, 9 and the
    identity objective, the candidates are the five one-coordinate vectors,
    and [solve] raises [IndexError] at the first of them, where it reads
    [arg[1]]: there is no trace and no best value. *)
Lemma scenario_one_axis_raises :
  dimension segment = 1%Z /\ lower_bound segment = 0 /\ upper_bound segment = 10 /\
  candidates [[5; 3; 8; 1; 9]] 5 = inr [[5]; [3]; [8]; [1]; [9]] /\
  map first_coordinate [[5]; [3]; [8]; [1]; [9]] = [5; 3; 8; 1; 9] /\
  forall visualize,
    solve_from visualize segment [[5; 3; 8; 1; 9]] 5 first_coordinate
    = inl Py.IndexError.
Proof. repeat split; reflexivity. Qed.

(** C4, amended: with dimension 2, bounds [0, 10], candidates whose first
    coordinates are 5, 3, 8, 1, 9 in that order (and any second coordinates
    [y1 .. y5]), and the objective that returns the first coordinate, the
    search loop of [solve] ends with the trace
    [(5, y1, 5), (3, y2, 3), (1, y4, 1)] and the best value 1; [solve] calls
    [visualize] with that trace and, the call returning, returns 1. *)
Theorem scenario_two_axes (visualize : visualizer) (y1 y2 y3 y4 y5 : float) :
  let self := mkSolution 2 0 10 [0; 0] in
  let params := [[5; 3; 8; 1; 9]; [y1; y2; y3; y4; y5]] in
  let points := [(5, y1, 5); (3, y2, 3); (1, y4, 1)] in
  candidates params 5 = inr [[5; y1]; [3; y2]; [8; y3]; [1; y4]; [9; y5]] /\
  search params 5 first_coordinate = inr (mkTracker 1 points) /\
  solve_from visualize self params 5 first_coordinate =
    (let* shown := visualize self points first_coordinate in
     inr (mkOutcome 1 points (Some points))) /\
  (visualize self points first_coordinate = inr tt ->
   solve_from visualize self params 5 first_coordinate =
     inr (mkOutcome 1 points (Some points))).
Proof.
  intros self params points.
  assert (E : solve_from visualize self params 5 first_coordinate =
              (let* shown := visualize self points first_coordinate in
               inr (mkOutcome 1 points (Some points)))) by reflexivity.
  split; [reflexivity|]. split; [reflexivity|]. split; [exact E|].
  intros H. rewrite E, H. reflexivity.
Qed.

Lemma scenario_two_axes_witness :
  solve_from returning (mkSolution 2 0 10 [0; 0])
    [[5; 3; 8; 1; 9]; [6; 7; 2; 4; 0]] 5 first_coordinate =
  inr (mkOutcome 1 [(5, 6, 5); (3, 7, 3); (1, 4, 1)]
         (Some [(5, 6, 5); (3, 7, 3); (1, 4, 1)])).
Proof.
  apply (proj2 (proj2 (proj2 (scenario_two_axes returning 6 7 2 4 0)))).
  reflexivity.
Defined.

(** * The loop as a scan of the candidates *)

Section Scan.

Lemma for_each_scan (fnc : list float -> float) (params : list (list float))
    (idx : list nat) :
  forall (args : list (list float)) (st : tracker),
  Py.traverse (select_arg params) idx = inr args ->
  Py.for_each (solve_step fnc params) idx st = scan fnc args st.
Proof.
  induction idx as [|i idx IH]; simpl; intros args st Hargs.
  - now inversion Hargs.
  - destruct (select_arg params i) as [e|arg] eqn:Harg; simpl in Hargs; try discriminate.
    destruct (Py.traverse (select_arg params) idx) as [e|args'] eqn:Htl;
      simpl in Hargs; try discriminate.
    inversion Hargs; subst args. simpl.
    rewrite (solve_step_unfold fnc params st i arg Harg). fold (improve fnc st arg).
    destruct (improve fnc st arg) as [e|st1]; simpl; trivial.
    now apply IH.
Qed.


Lemma search_scan (params : list (list float)) (point_count : Z)
    (fnc : list float -> float) (cands : list (list float)) :
  candidates params point_count = inr cands ->
  search params point_count fnc = scan fnc cands (mkTracker infinity []).
Proof.
  intros Hc. unfold search.
  apply (for_each_scan fnc params (Py.range point_count) cands _ Hc).
Qed.

(** A candidate of fewer than two coordinates either leaves the loop
    variables as they are or stops the loop. *)
Lemma scan_short (fnc : list float -> float) (args : list (list float)) (st : tracker) :
  Forall (fun arg => length arg < 2) args ->
  scan fnc args st =
  if existsb (fun arg => fnc arg <? best_value st) args then inl Py.IndexError
  else inr st.
Proof.
  induction 1 as [|arg args Hlen _ IH]; simpl; trivial.
  unfold improve. destruct (fnc arg <? best_value st); simpl.
  - destruct arg as [|a0 [|a1 rest]]; trivial. simpl in Hlen. lia.
  - exact IH.
Qed.

Lemma traverse_Forall {A B : Type} (f : A -> Py.result B) (P : B -> Prop) :
  (forall x y, f x = inr y -> P y) ->
  forall (xs : list A) (ys : list B), Py.traverse f xs = inr ys -> Forall P ys.
Proof.
  intros Hf. induction xs as [|x xs IH]; simpl; intros ys H.
  - inversion H. constructor.
  - destruct (f x) as [e|y] eqn:E; simpl in H; try discriminate.
    destruct (Py.traverse f xs) as [e|ys']; simpl in H; try discriminate.
    inversion H; subst. constructor; eauto.
Qed.

End Scan.

(** * Configurations that the specification calls invalid *)

Lemma solve_no_points (visualize : visualizer) (self : Solution)
    (fnc : list float -> float) (g : Np.RandomState) :
  searched self 0 fnc g = inr (mkTracker infinity []) /\
  fst (solve visualize self 0 fnc g) =
  conclude visualize self fnc (mkTracker infinity []).
Proof.
  destruct (solve_sampled visualize self 0 fnc g)
    as [params [cands [g' [_ [_ [_ [_ [Eq Es]]]]]]]]; [lia|].
  rewrite Es, Eq. split; reflexivity.
Qed.

Lemma solve_negative_points (visualize : visualizer) (self : Solution)
    (point_count : Z) (fnc : list float -> float) (g : Np.RandomState) :
  (1 <= dimension self)%Z -> (point_count < 0)%Z ->
  solve visualize self point_count fnc g = (inl Py.ValueError, g).
Proof.
  intros Hd Hn. unfold solve, Py.range.
  destruct (Z.to_nat (dimension self)) as [|d] eqn:E; [lia|]. simpl.
  now rewrite random_range_negative.
Qed.

Lemma init_cases (d : Z) (lo hi : float) :
  ((d < 0)%Z -> init d lo hi = inl Py.ValueError) /\
  ((0 <= d)%Z -> init d lo hi = inr (mkSolution d lo hi (repeat 0 (Z.to_nat d)))).
Proof.
  unfold init, Np.zeros. destruct (Z.ltb_spec d 0); split; intros; trivial; lia.
Qed.

(** C5, as stated, fails: with [point_count = 0] [solve] returns
    [+infinity] and an empty trace; and with [lower_bound >= upper_bound] it
    samples, evaluates and returns as with any other bounds. With three axes
    neither run reaches [visualize]. *)
Lemma invalid_configuration_accepted :
  (forall visualize,
     fst (solve visualize cube 0 first_coordinate halves)
     = inr (mkOutcome infinity [] None)) /\
  ((upper_bound reversed_cube <=? lower_bound reversed_cube) = true /\
   evaluated reversed_cube 2 halves = inr [[0; 0; 0]; [0; 0; 0]] /\
   (forall visualize,
      fst (solve visualize reversed_cube 2 first_coordinate halves)
      = inr (mkOutcome 0 [(0, 0, 0)] None))).
Proof. repeat split; reflexivity. Qed.

(** C5, amended: [solve] checks no configuration and raises no
    [InvalidConfiguration]. With [point_count = 0] its loop evaluates nothing
    and ends with [+infinity] and an empty trace, whatever the dimension and
    the bounds; with two axes or more and [point_count >= 0] sampling and
    the loop complete whatever the bounds are, [lower_bound >= upper_bound]
    included. In both cases [solve] then returns the best value, after the
    [visualize] call when there are two axes, whose exception it raises. A
    negative [point_count] with at least one axis makes numpy raise
    [ValueError] in sampling, before any evaluation, and a negative dimension
    makes numpy raise [ValueError] in the constructor. *)
Theorem solve_checks_no_configuration :
  (forall visualize self fnc g,
     searched self 0 fnc g = inr (mkTracker infinity []) /\
     fst (solve visualize self 0 fnc g) =
     conclude visualize self fnc (mkTracker infinity [])) /\
  (forall visualize self point_count fnc g,
     (2 <= dimension self)%Z -> (0 <= point_count)%Z ->
     exists st,
       searched self point_count fnc g = inr st /\
       fst (solve visualize self point_count fnc g) = conclude visualize self fnc st) /\
  (forall visualize self point_count fnc g,
     (1 <= dimension self)%Z -> (point_count < 0)%Z ->
     solve visualize self point_count fnc g = (inl Py.ValueError, g)) /\
  (forall d lo hi,
     ((d < 0)%Z -> init d lo hi = inl Py.ValueError) /\
     ((0 <= d)%Z -> init d lo hi = inr (mkSolution d lo hi (repeat 0 (Z.to_nat d))))).
Proof.
  split; [|split; [|split]].
  - apply solve_no_points.
  - intros visualize self point_count fnc g Hd Hn.
    destruct (solve_tracked visualize self point_count fnc g Hd Hn)
      as [cands [st [_ [_ [Eq [Es _]]]]]].
    eauto.
  - apply solve_negative_points.
  - apply init_cases.
Qed.

Lemma solve_checks_no_configuration_witness :
  (exists st,
     searched reversed_cube 2 first_coordinate halves = inr st /\
     fst (solve raising reversed_cube 2 first_coordinate halves)
     = inr (mkOutcome (best_value st) (best_points st) None)) /\
  solve returning square (-1) first_coordinate halves = (inl Py.ValueError, halves) /\
  init (-1) 0 10 = inl Py.ValueError.
Proof.
  destruct solve_checks_no_configuration as [_ [H2 [H3 H4]]].
  split; [|split].
  - apply (H2 raising reversed_cube 2%Z first_coordinate halves); simpl; lia.
  - apply (H3 returning square (-1)%Z first_coordinate halves); simpl; lia.
  - apply (proj1 (H4 (-1)%Z 0 10)); lia.
Defined.

(** * The entry point *)

(** C6: [main] builds its object with [BlindSearchSolution(2, 10, -10)], so
    that the lower bound is 10 and the upper bound is -10: the lower bound
    is not below the upper one. The dimension is 2, and [solve] is called
    with 20000 points and the objective imported as [sphere]. *)
Theorem main_bounds (visualize : visualizer) (sphere : list float -> float)
    (g : Np.RandomState) :
  exists solution,
    init 2 10 (-10) = inr solution /\
    main visualize sphere g = solve visualize solution 20000 sphere g /\
    dimension solution = 2%Z /\
    lower_bound solution = 10 /\
    upper_bound solution = -10 /\
    (lower_bound solution <? upper_bound solution) = false.
Proof. exists reversed. repeat split; reflexivity. Qed.

(** * Ties and constant objectives *)

Lemma constant_trace (fnc : list float -> float) (c : float)
    (c0 : list float) (rest : list (list float)) (st : tracker) :
  (forall arg, fnc arg = c) -> (c <? infinity) = true ->
  tracked fnc (c0 :: rest) st ->
  exists a0 a1 tl, c0 = a0 :: a1 :: tl /\ st = mkTracker c [(a0, a1, c)].
Proof.
  intros Hc Hinf T.
  destruct (tracked_head _ _ _ T c0 rest eq_refl) as [p0 [t [Et [a0 [a1 [tl [E0 Ep0]]]]]]].
  { now rewrite Hc. }
  rewrite Hc in Ep0.
  assert (Ht : t = []).
  { pose proof (tracked_sorted _ _ _ T) as Hs.
    pose proof (tracked_from _ _ _ T) as Hf.
    rewrite Et in Hs, Hf. destruct t as [|q t']; trivial.
    simpl in Hs. inversion Hs as [|? ? _ Hall]; subst.
    inversion Hall as [|? ? Hq _]; subst.
    inversion Hf as [|? ? _ Hf']; subst.
    inversion Hf' as [|? ? [_ [arg [_ Harg]]] _]; subst.
    rewrite (entry_of_value fnc arg q Harg), Hc in Hq. simpl in Hq.
    now rewrite FloatOrder.ltb_irrefl in Hq. }
  subst t. pose proof (tracked_last _ _ _ T) as Hl. rewrite Et in Hl.
  exists a0, a1, tl. split; trivial.
  destruct st as [b ps]. simpl in *. subst. reflexivity.
Qed.

(** C7, as stated, fails: on the objective that is [+infinity] everywhere the
    trace is empty, not of one element; and on one-coordinate candidates the
    objective that is 7 everywhere makes [solve] raise at the first of them.
    Neither run reaches [visualize]. *)
Lemma constant_objective_without_single_entry :
  (forall visualize,
     fst (solve visualize cube 2 (constantly infinity) halves)
     = inr (mkOutcome infinity [] None)) /\
  (candidates [[5; 3; 8; 1; 9]] 5 = inr [[5]; [3]; [8]; [1]; [9]] /\
   (forall visualize,
      solve_from visualize segment [[5; 3; 8; 1; 9]] 5 (constantly 7)
      = inl Py.IndexError)).
Proof. repeat split; reflexivity. Qed.

(** C7, amended: a candidate whose value equals the current best value
    leaves the trace and the best value as they are; and for an objective
    that is constant with a value strictly below [+infinity] (7, say), with
    two axes or more and at least one sample, the search loop ends with that
    constant as its best value and with a trace of exactly one entry, that
    of the first candidate. [solve] returns the constant; with two axes it
    calls [visualize] before, and raises what that call raises. *)
Theorem ties_do_not_improve :
  (forall fnc params st i arg,
     select_arg params i = inr arg ->
     (fnc arg =? best_value st) = true ->
     solve_step fnc params st i = inr st) /\
  (forall visualize self point_count fnc c g,
     (2 <= dimension self)%Z -> (1 <= point_count)%Z ->
     (forall arg, fnc arg = c) -> (c <? infinity) = true ->
     exists a0 a1 tl rest,
       evaluated self point_count g = inr ((a0 :: a1 :: tl) :: rest) /\
       searched self point_count fnc g = inr (mkTracker c [(a0, a1, c)]) /\
       fst (solve visualize self point_count fnc g) =
       conclude visualize self fnc (mkTracker c [(a0, a1, c)])).
Proof.
  split.
  - intros fnc params st i arg Harg Htie.
    rewrite (solve_step_unfold fnc params st i arg Harg).
    now rewrite (FloatOrder.eqb_not_ltb _ _ Htie).
  - intros visualize self point_count fnc c g Hd Hn Hc Hinf.
    destruct (solve_tracked visualize self point_count fnc g Hd)
      as [cands [st [Ev [L [Eq [Es T]]]]]]; [lia|].
    destruct cands as [|c0 rest]; [simpl in L; lia|].
    destruct (constant_trace fnc c c0 rest st Hc Hinf T) as [a0 [a1 [tl [E0 Est]]]].
    subst c0 st. exists a0, a1, tl, rest. auto.
Qed.

Lemma ties_do_not_improve_witness :
  solve_step first_coordinate [[5; 5]; [1; 2]] (mkTracker 5 [(5, 1, 5)]) 1
    = inr (mkTracker 5 [(5, 1, 5)]) /\
  exists a0 a1 tl rest,
    evaluated cube 4 halves = inr ((a0 :: a1 :: tl) :: rest) /\
    searched cube 4 (constantly 7) halves = inr (mkTracker 7 [(a0, a1, 7)]) /\
    fst (solve raising cube 4 (constantly 7) halves)
    = inr (mkOutcome 7 [(a0, a1, 7)] None).
Proof.
  destruct ties_do_not_improve as [H1 H2]. split.
  - apply (H1 first_coordinate [[5; 5]; [1; 2]] (mkTracker 5 [(5, 1, 5)]) 1%nat [5; 2]);
      reflexivity.
  - apply (H2 raising cube 4%Z (constantly 7) 7 halves);
      [simpl; lia | lia | reflexivity | reflexivity].
Defined.

(** * NaN values *)

(** C8: a candidate whose value is NaN leaves the trace and the best value
    as they are, whatever they are at that point: [calculated_value <
    best_value] is false. The initial state, where the best value is
    [+infinity], is one case. *)
Theorem nan_never_improves (fnc : list float -> float) (params : list (list float))
    (st : tracker) (i : nat) (arg : list float) :
  select_arg params i = inr arg ->
  is_nan (fnc arg) = true ->
  (fnc arg <? best_value st) = false /\
  solve_step fnc params st i = inr st.
Proof.
  intros Harg Hnan.
  assert (Hlt : (fnc arg <? best_value st) = false) by now apply FloatOrder.ltb_nan_l.
  split; trivial.
  rewrite (solve_step_unfold fnc params st i arg Harg). now rewrite Hlt.
Qed.

Lemma nan_never_improves_witness :
  (constantly nan [5; 1] <? infinity) = false /\
  solve_step (constantly nan) [[5; 3]; [1; 2]] (mkTracker infinity []) 0
    = inr (mkTracker infinity []).
Proof.
  apply (nan_never_improves (constantly nan) [[5; 3]; [1; 2]] (mkTracker infinity [])
           0%nat [5; 1]); reflexivity.
Defined.

(** No entry of the trace has a NaN value, and the returned value is not
    NaN. *)
Lemma tracked_values_not_nan (fnc : list float -> float) (seen : list (list float))
    (st : tracker) :
  tracked fnc seen st ->
  Forall (fun p => is_nan (point_value p) = false) (best_points st).
Proof.
  intros T. eapply Forall_impl; [|apply (tracked_from _ _ _ T)].
  intros p [Hp _]. simpl in Hp. destruct (is_nan (point_value p)) eqn:N; trivial.
  now rewrite (FloatOrder.ltb_nan_l _ infinity N) in Hp.
Qed.

(** * Determinism *)

Lemma conclude_inr (visualize : visualizer) (self : Solution)
    (fnc : list float -> float) (st : tracker) (out : outcome) :
  conclude visualize self fnc st = inr out ->
  trace out = best_points st /\ returned out = best_value st.
Proof.
  unfold conclude. destruct (dimension self =? 2)%Z.
  - destruct (visualize self (best_points st) fnc) as [e|shown]; simpl;
      intros H; inversion H; auto.
  - intros H; inversion H; auto.
Qed.



(** * The shape of a trace entry *)

Lemma candidates_lengths (params : list (list float)) (point_count : Z)
    (cands : list (list float)) :
  candidates params point_count = inr cands ->
  Forall (fun arg => length arg = length params) cands.
Proof.
  apply traverse_Forall. intros i arg. apply select_arg_length.
Qed.

Lemma existsb_Exists {A : Type} (f : A -> bool) (xs : list A) :
  Exists (fun x => f x = true) xs -> existsb f xs = true.
Proof.
  intros H. apply existsb_exists. apply Exists_exists in H. exact H.
Qed.

(** C10: an improving candidate [arg] is appended as
    [(arg[0], arg[1], fnc(arg))], whatever follows its second coordinate,
    and the step raises [IndexError] when [arg] has fewer than two
    coordinates. With two axes or more, the search loop completes and every
    entry of the trace it leaves is that triple of an evaluated candidate.
    With one axis, [solve] raises [IndexError] as soon as one evaluated
    value is strictly below [+infinity], which is when a candidate first
    improves. *)
Theorem trace_entry_shape :
  (forall fnc params st i arg,
     select_arg params i = inr arg ->
     (fnc arg <? best_value st) = true ->
     solve_step fnc params st i =
     match arg with
     | a0 :: a1 :: _ =>
         inr (mkTracker (fnc arg) (best_points st ++ [(a0, a1, fnc arg)]))
     | _ => inl Py.IndexError
     end) /\
  (forall visualize self point_count fnc g,
     (2 <= dimension self)%Z -> (0 <= point_count)%Z ->
     exists cands st,
       evaluated self point_count g = inr cands /\
       searched self point_count fnc g = inr st /\
       fst (solve visualize self point_count fnc g) = conclude visualize self fnc st /\
       Forall (fun p => exists a0 a1 rest,
                 In (a0 :: a1 :: rest) cands /\ p = (a0, a1, fnc (a0 :: a1 :: rest)))
              (best_points st)) /\
  (forall visualize self point_count fnc g,
     dimension self = 1%Z -> (0 <= point_count)%Z ->
     exists cands,
       evaluated self point_count g = inr cands /\
       Forall (fun arg => length arg = 1%nat) cands /\
       (Exists (fun arg => (fnc arg <? infinity) = true) cands ->
        fst (solve visualize self point_count fnc g) = inl Py.IndexError)).
Proof.
  split; [|split].
  - intros fnc params st i arg Harg Hlt.
    rewrite (solve_step_unfold fnc params st i arg Harg). now rewrite Hlt.
  - intros visualize self point_count fnc g Hd Hn.
    destruct (solve_tracked visualize self point_count fnc g Hd Hn)
      as [cands [st [Ev [_ [Eq [Es T]]]]]].
    exists cands, st. split; [exact Ev|]. split; [exact Eq|]. split; [exact Es|].
    eapply Forall_impl; [|apply (tracked_from _ _ _ T)].
    intros p [_ [arg [Hin [a0 [a1 [rest [Ea Ep]]]]]]]. subst arg.
    exists a0, a1, rest. auto.
  - intros visualize self point_count fnc g Hd Hn.
    destruct (solve_sampled visualize self point_count fnc g Hn)
      as [params [cands [g' [Lp [Ec [_ [Ev [_ Es]]]]]]]].
    pose proof (candidates_lengths params point_count cands Ec) as Hlen.
    rewrite Lp, Hd in Hlen. change (Z.to_nat 1) with 1%nat in Hlen.
    exists cands. split; [exact Ev|]. split; [exact Hlen|].
    intros Hex. rewrite Es. simpl. unfold solve_from.
    rewrite (search_scan params point_count fnc cands Ec).
    rewrite scan_short.
    + simpl. now rewrite (existsb_Exists _ _ Hex).
    + eapply Forall_impl; [|exact Hlen]. simpl. intros arg ->. lia.
Qed.

Lemma trace_entry_shape_witness :
  solve_step first_coordinate [[5; 3]; [1; 2]; [8; 9]] (mkTracker infinity []) 0
    = inr (mkTracker 5 [(5, 1, 5)]) /\
  solve_step first_coordinate [[5; 3]] (mkTracker infinity []) 0 = inl Py.IndexError /\
  (exists cands,
     evaluated segment 3 halves = inr cands /\
     Forall (fun arg => length arg = 1%nat) cands /\
     (Exists (fun arg => (first_coordinate arg <? infinity) = true) cands ->
      fst (solve returning segment 3 first_coordinate halves) = inl Py.IndexError)).
Proof.
  destruct trace_entry_shape as [H1 [_ H3]]. split; [|split].
  - apply (H1 first_coordinate [[5; 3]; [1; 2]; [8; 9]] (mkTracker infinity []) 0%nat
             [5; 1; 8]); reflexivity.
  - apply (H1 first_coordinate [[5; 3]] (mkTracker infinity []) 0%nat [5]); reflexivity.
  - apply (H3 returning segment 3%Z first_coordinate halves); [reflexivity | lia].
Defined.

(** * Which draw becomes which coordinate *)

Lemma seq_from (c n : nat) : seq c n = map (fun i => (c + i)%nat) (seq 0 n).
Proof.
  revert c. induction n as [|n IH]; intros c; simpl; trivial.
  rewrite Nat.add_0_r. f_equal.
  rewrite <- (seq_shift n 0), map_map, (IH (S c)).
  apply map_ext. intros i. lia.
Qed.

Lemma advanced_advanced (g : Np.RandomState) (m n : nat) :
  advanced (advanced g m) n = advanced g (m + n)%nat.
Proof. unfold advanced. simpl. f_equal. lia. Qed.

Lemma random_range_run (n : Z) (lo hi : float) (g : Np.RandomState) :
  (0 <= n)%Z ->
  random_range n lo hi g =
  (inr (map (fun i => scaled lo hi (Np.draws g (Np.cursor g + i)%nat)) (seq 0 (Z.to_nat n))),
   advanced g (Z.to_nat n)).
Proof.
  intros Hn. unfold random_range, Np.rand.
  destruct (Z.ltb_spec n 0); try lia.
  rewrite (seq_from (Np.cursor g)), !map_map. reflexivity.
Qed.

Lemma draw_axes_run (point_count : Z) (lo hi : float) (axes : list nat) :
  (0 <= point_count)%Z ->
  forall (acc : list (list float)) (g : Np.RandomState),
  draw_axes axes point_count lo hi acc g =
  (inr (acc ++
        map (fun k =>
               map (fun i => scaled lo hi
                               (Np.draws g (Np.cursor g + k * Z.to_nat point_count + i)%nat))
                   (seq 0 (Z.to_nat point_count)))
            (seq 0 (length axes))),
   advanced g (length axes * Z.to_nat point_count)%nat).
Proof.
  intros Hn. induction axes as [|x axes IH]; intros acc g; simpl.
  - rewrite app_nil_r. unfold advanced. rewrite Nat.add_0_r. now destruct g.
  - rewrite (random_range_run point_count lo hi g Hn), IH, advanced_advanced.
    rewrite <- app_assoc. simpl app.
    rewrite <- (seq_shift (length axes) 0), map_map.
    f_equal. f_equal. f_equal. f_equal.
    + apply map_ext. intros i. now rewrite Nat.add_0_r.
    + apply map_ext. intros k. apply map_ext. intros i.
      simpl. f_equal. f_equal. lia.
Qed.

Lemma traverse_map {A B : Type} (f : A -> Py.result B) (h : A -> B) (xs : list A) :
  (forall x, In x xs -> f x = inr (h x)) -> Py.traverse f xs = inr (map h xs).
Proof.
  induction xs as [|x xs IH]; simpl; intros H; trivial.
  rewrite (H x) by now left. simpl. rewrite IH by (intros; apply H; now right).
  reflexivity.
Qed.

Lemma draw_axes_columns (self : Solution) (point_count : Z) (g : Np.RandomState) :
  (0 <= point_count)%Z ->
  draw_axes (Py.range (dimension self)) point_count
    (lower_bound self) (upper_bound self) [] g =
  (inr (sampled_columns self point_count g),
   advanced g (Z.to_nat (dimension self) * Z.to_nat point_count)%nat).
Proof.
  intros Hn. rewrite (draw_axes_run point_count _ _ _ Hn).
  unfold Py.range. rewrite length_seq. reflexivity.
Qed.

Lemma candidates_columns (self : Solution) (point_count : Z) (g : Np.RandomState) :
  candidates (sampled_columns self point_count g) point_count =
  inr (map (fun i => map (fun k => sample self point_count g k i)
                         (seq 0 (Z.to_nat (dimension self))))
           (seq 0 (Z.to_nat point_count))).
Proof.
  unfold candidates, Py.range.
  apply traverse_map. intros i Hi. apply in_seq in Hi.
  unfold select_arg, sampled_columns. rewrite traverse_map with
    (h := fun column : list float => nth i column 0).
  - rewrite map_map. f_equal. apply map_ext. intros k.
    rewrite (nth_indep _ 0 (sample self point_count g k 0))
      by (rewrite length_map, length_seq; lia).
    rewrite (map_nth (fun j => sample self point_count g k j)).
    rewrite seq_nth by lia. reflexivity.
  - intros column Hc. apply in_map_iff in Hc. destruct Hc as [k [<- _]].
    unfold Py.getitem. rewrite (nth_error_nth' _ 0); trivial.
    rewrite length_map, length_seq. lia.
Qed.

(** X1: when [point_count >= 0], [solve] fills [params] with one column of
    [point_count] values for each axis and runs its loop on them; place [i]
    of column [k] is [(upper_bound - lower_bound) * r + lower_bound] for the
    draw [r] of rank [k * point_count + i] after the generator's position
    (the draws are consumed one whole axis after the other), so that the
    argument list the loop assembles at step [i] has [dimension]
    coordinates, coordinate [k] coming from that draw. *)
Theorem sampling_layout (visualize : visualizer) (self : Solution) (point_count : Z)
    (fnc : list float -> float) (g : Np.RandomState) :
  (0 <= point_count)%Z ->
  solve visualize self point_count fnc g =
    (solve_from visualize self (sampled_columns self point_count g) point_count fnc,
     advanced g (Z.to_nat (dimension self) * Z.to_nat point_count)) /\
  searched self point_count fnc g =
    search (sampled_columns self point_count g) point_count fnc /\
  candidates (sampled_columns self point_count g) point_count =
    inr (map (fun i => map (fun k => sample self point_count g k i)
                           (seq 0 (Z.to_nat (dimension self))))
             (seq 0 (Z.to_nat point_count))).
Proof.
  intros Hn. split; [|split].
  - unfold solve. now rewrite (draw_axes_columns self point_count g Hn).
  - unfold searched. now rewrite (draw_axes_columns self point_count g Hn).
  - apply candidates_columns.
Qed.

Lemma sampling_layout_witness :
  solve returning reversed 2 first_coordinate halves =
    (solve_from returning reversed (sampled_columns reversed 2 halves) 2 first_coordinate,
     advanced halves (Z.to_nat (dimension reversed) * Z.to_nat 2)) /\
  searched reversed 2 first_coordinate halves =
    search (sampled_columns reversed 2 halves) 2 first_coordinate /\
  candidates (sampled_columns reversed 2 halves) 2 =
    inr (map (fun i => map (fun k => sample reversed 2 halves k i)
                           (seq 0 (Z.to_nat (dimension reversed))))
             (seq 0 (Z.to_nat 2))).
Proof. apply (sampling_layout returning reversed 2 first_coordinate halves). lia. Defined.

(** X2: when [point_count >= 0], a call of [solve] leaves the generator
    exactly [dimension * point_count] draws further, whatever the objective
    is and whether the search loop completes or raises. *)
Theorem solve_draws (visualize : visualizer) (self : Solution) (point_count : Z)
    (fnc : list float -> float) (g : Np.RandomState) :
  (0 <= point_count)%Z ->
  snd (solve visualize self point_count fnc g) =
  advanced g (Z.to_nat (dimension self) * Z.to_nat point_count).
Proof.
  intros Hn. unfold solve.
  rewrite (draw_axes_run point_count _ _ _ Hn). simpl.
  unfold Py.range. now rewrite length_seq.
Qed.

Lemma solve_draws_witness :
  snd (solve raising segment 3 first_coordinate halves) =
  advanced halves (Z.to_nat (dimension segment) * Z.to_nat 3).
Proof. apply (solve_draws raising segment 3 first_coordinate halves). lia. Defined.

(** * Fewer than two axes *)

(** X3: with fewer than two axes and [point_count >= 0], [solve] raises
    [IndexError] when the value of some evaluated candidate is strictly below
    [+infinity]; otherwise it returns [+infinity], leaves an empty trace and
    does not call [visualize]. *)
Theorem solve_below_two_axes (visualize : visualizer) (self : Solution)
    (point_count : Z) (fnc : list float -> float) (g : Np.RandomState) :
  (dimension self < 2)%Z -> (0 <= point_count)%Z ->
  exists cands,
    evaluated self point_count g = inr cands /\
    fst (solve visualize self point_count fnc g) =
    if existsb (fun arg => fnc arg <? infinity) cands then inl Py.IndexError
    else inr (mkOutcome infinity [] None).
Proof.
  intros Hd Hn.
  destruct (solve_sampled visualize self point_count fnc g Hn)
    as [params [cands [g' [Lp [Ec [_ [Ev [_ Es]]]]]]]].
  pose proof (candidates_lengths params point_count cands Ec) as Hlen.
  exists cands. split; [exact Ev|].
  rewrite Es. simpl. unfold solve_from.
  rewrite (search_scan params point_count fnc cands Ec).
  rewrite scan_short.
  - simpl. destruct (existsb _ cands); trivial. simpl. unfold conclude.
    destruct (Z.eqb_spec (dimension self) 2); trivial. lia.
  - eapply Forall_impl; [|exact Hlen]. simpl. intros arg ->. lia.
Qed.

Lemma solve_below_two_axes_witness :
  exists cands,
    evaluated segment 3 halves = inr cands /\
    fst (solve raising segment 3 (constantly nan) halves) =
    if existsb (fun arg => constantly nan arg <? infinity) cands then inl Py.IndexError
    else inr (mkOutcome infinity [] None).
Proof.
  apply (solve_below_two_axes raising segment 3 (constantly nan) halves); simpl; lia.
Defined.

Lemma existsb_repeat {A : Type} (f : A -> bool) (x : A) (n : nat) :
  existsb f (repeat x n) = (0 <? n)%nat && f x.
Proof.
  induction n as [|n IH]; simpl; trivial.
  rewrite IH. destruct (f x); simpl; trivial. apply andb_false_r.
Qed.

(** X4: with no axis ([dimension <= 0]) [solve] draws nothing and calls the
    objective on the empty list: it raises [IndexError] when
    [point_count >= 1] and that value is strictly below [+infinity], and
    returns [+infinity] with an empty trace otherwise, a negative
    [point_count] included. *)
Theorem solve_without_axes (visualize : visualizer) (self : Solution)
    (point_count : Z) (fnc : list float -> float) (g : Np.RandomState) :
  (dimension self <= 0)%Z ->
  solve visualize self point_count fnc g =
  (if (0 <? point_count)%Z && (fnc [] <? infinity) then inl Py.IndexError
   else inr (mkOutcome infinity [] None),
   g).
Proof.
  intros Hd. unfold solve, Py.range at 1.
  replace (Z.to_nat (dimension self)) with 0%nat by lia. simpl.
  f_equal. unfold solve_from, search.
  assert (Ec : Py.traverse (select_arg []) (Py.range point_count)
               = inr (repeat [] (Z.to_nat point_count))).
  { unfold Py.range. generalize 0%nat. induction (Z.to_nat point_count) as [|n IH];
      intros c; simpl; trivial. now rewrite IH. }
  rewrite (for_each_scan fnc [] (Py.range point_count) _ _ Ec).
  rewrite scan_short by (apply Forall_forall; intros arg Ha;
                         apply repeat_spec in Ha; subst; simpl; lia).
  simpl. rewrite existsb_repeat.
  replace (0 <? Z.to_nat point_count)%nat with (0 <? point_count)%Z
    by (destruct (Z.ltb_spec 0 point_count), (Nat.ltb_spec 0 (Z.to_nat point_count));
        trivial; lia).
  destruct ((0 <? point_count)%Z && (fnc [] <? infinity)); trivial. simpl.
  unfold conclude. destruct (Z.eqb_spec (dimension self) 2); trivial. lia.
Qed.

Lemma solve_without_axes_witness :
  solve raising (mkSolution 0 (-10) 10 []) (-4) first_coordinate halves =
  (if (0 <? -4)%Z && (first_coordinate [] <? infinity) then inl Py.IndexError
   else inr (mkOutcome infinity [] None),
   halves).
Proof.
  apply (solve_without_axes raising (mkSolution 0 (-10) 10 []) (-4)
           first_coordinate halves).
  simpl. lia.
Defined.

(** * The trace as the list of records *)

Lemma select_singletons (arg : list float) :
  select_arg (map (fun a => [a]) arg) 0 = inr arg.
Proof.
  unfold select_arg. induction arg as [|a arg IH]; simpl; trivial.
  now rewrite IH.
Qed.

(** [improve] keeps the invariant of the loop. *)
Lemma tracked_improve (fnc : list float -> float) (seen : list (list float))
    (st st' : tracker) (arg : list float) :
  tracked fnc seen st -> improve fnc st arg = inr st' ->
  tracked fnc (seen ++ [arg]) st'.
Proof.
  intros T H.
  apply (tracked_step fnc (map (fun a => [a]) arg) seen st st' 0 arg T
           (select_singletons arg)).
  now rewrite (solve_step_unfold fnc _ st 0 arg (select_singletons arg)).
Qed.

(** The test of line 94 is the test for a record. *)
Lemma improving_is_record (fnc : list float -> float) (seen : list (list float))
    (st : tracker) (arg : list float) :
  tracked fnc seen st ->
  (fnc arg <? best_value st) = improves_on fnc seen arg.
Proof.
  intros T. unfold improves_on.
  pose proof (tracked_not_nan fnc seen st T) as Hnan.
  destruct (fnc arg <? best_value st) eqn:Hlt; symmetry.
  - apply andb_true_iff. split.
    + destruct (tracked_bounded _ _ _ T) as [E|E].
      * now rewrite <- E.
      * eapply FloatOrder.ltb_trans; eauto.
    + apply forallb_forall. intros u Hu.
      pose proof (tracked_lower _ _ _ T) as Hlo. rewrite Forall_forall in Hlo.
      specialize (Hlo u Hu). simpl in Hlo.
      destruct (is_nan (fnc u)) eqn:Nu; simpl; trivial.
      apply (FloatOrder.ltb_leb_trans _ _ _ Hlt).
      now apply FloatOrder.not_ltb_leb.
  - apply andb_false_iff.
    destruct (fnc arg <? infinity) eqn:Hinf; [right|now left].
    destruct (tracked_cases fnc seen st T) as [[_ E]|[t [p [a [_ [E [Hin Ha]]]]]]].
    + rewrite E in Hlt. congruence.
    + rewrite (entry_of_value fnc a p Ha) in E.
      destruct (forallb _ seen) eqn:F; trivial.
      rewrite forallb_forall in F. specialize (F a Hin). simpl in F.
      rewrite <- E, Hnan, Hlt in F. discriminate.
Qed.

Lemma scan_records (fnc : list float -> float) (cands : list (list float)) :
  forall (seen : list (list float)) (st st' : tracker),
  tracked fnc seen st -> scan fnc cands st = inr st' ->
  exists ext,
    best_points st' = best_points st ++ ext /\
    Forall2 (entry_of fnc) (records fnc seen cands) ext.
Proof.
  induction cands as [|c cands IH]; simpl; intros seen st st' T Hrun.
  - inversion Hrun; subst. exists []. rewrite app_nil_r. split; [reflexivity|constructor].
  - destruct (improve fnc st c) as [e|st1] eqn:Hc; simpl in Hrun; try discriminate.
    pose proof (tracked_improve fnc seen st st1 c T Hc) as T1.
    destruct (IH (seen ++ [c]) st1 st' T1 Hrun) as [ext [E F]].
    rewrite <- (improving_is_record fnc seen st c T).
    unfold improve in Hc. destruct (fnc c <? best_value st).
    + destruct c as [|a0 [|a1 rest]]; try discriminate.
      inversion Hc; subst st1; clear Hc. simpl in E.
      exists ((a0, a1, fnc (a0 :: a1 :: rest)) :: ext).
      rewrite E, <- app_assoc. split; trivial.
      constructor; trivial. exists a0, a1, rest. auto.
    + inversion Hc; subst st1. exists ext. auto.
Qed.

Lemma records_length (fnc : list float -> float) (cands : list (list float)) :
  forall prior, length (records fnc prior cands) <= length cands.
Proof.
  induction cands as [|c cands IH]; simpl; intros prior; trivial.
  destruct (improves_on fnc prior c); simpl; specialize (IH (prior ++ [c])); lia.
Qed.

Lemma tracked_scan (fnc : list float -> float) (args : list (list float)) :
  forall (seen : list (list float)) (st st' : tracker),
  tracked fnc seen st -> scan fnc args st = inr st' -> tracked fnc (seen ++ args) st'.
Proof.
  induction args as [|arg args IH]; simpl; intros seen st st' T H.
  - inversion H; subst. now rewrite app_nil_r.
  - destruct (improve fnc st arg) as [e|st1] eqn:E; simpl in H; try discriminate.
    replace (seen ++ arg :: args) with ((seen ++ [arg]) ++ args)
      by (now rewrite <- app_assoc).
    eapply IH; eauto. eapply tracked_improve; eauto.
Qed.

Lemma scan_completes (fnc : list float -> float) (args : list (list float)) :
  Forall (fun arg => 2 <= length arg) args ->
  forall st, exists st', scan fnc args st = inr st'.
Proof.
  induction 1 as [|arg args Hlen _ IH]; simpl; intros st; eauto.
  unfold improve. destruct (fnc arg <? best_value st); simpl; trivial.
  destruct arg as [|a0 [|a1 rest]]; simpl in Hlen; try lia. simpl. apply IH.
Qed.

Lemma candidates_two_axes (params : list (list float)) (point_count : Z)
    (cands : list (list float)) :
  2 <= length params -> candidates params point_count = inr cands ->
  Forall (fun arg => 2 <= length arg) cands.
Proof.
  intros Hp Hc. eapply Forall_impl; [|apply (candidates_lengths _ _ _ Hc)].
  simpl. intros arg ->. exact Hp.
Qed.

(** The search loop on columns of two axes or more completes, as a scan
    that ends in a state the invariant describes. *)
Lemma search_tracked (params : list (list float)) (point_count : Z)
    (fnc : list float -> float) (cands : list (list float)) :
  2 <= length params -> candidates params point_count = inr cands ->
  exists st,
    search params point_count fnc = inr st /\
    scan fnc cands (mkTracker infinity []) = inr st /\
    tracked fnc cands st.
Proof.
  intros Hp Hc.
  destruct (scan_completes fnc cands (candidates_two_axes _ _ _ Hp Hc)
              (mkTracker infinity [])) as [st Hs].
  exists st. split; [|split; trivial].
  - now rewrite (search_scan params point_count fnc cands Hc).
  - apply (tracked_scan fnc cands [] _ st (tracked_init fnc) Hs).
Qed.

(** The same for a call of [solve]. *)
Lemma solve_scanned (visualize : visualizer) (self : Solution) (point_count : Z)
    (fnc : list float -> float) (g : Np.RandomState) :
  (2 <= dimension self)%Z -> (0 <= point_count)%Z ->
  exists cands st,
    evaluated self point_count g = inr cands /\
    length cands = Z.to_nat point_count /\
    Forall (fun arg => length arg = Z.to_nat (dimension self)) cands /\
    searched self point_count fnc g = inr st /\
    solve visualize self point_count fnc g =
      (conclude visualize self fnc st,
       advanced g (Z.to_nat (dimension self) * Z.to_nat point_count)) /\
    scan fnc cands (mkTracker infinity []) = inr st /\
    tracked fnc cands st.
Proof.
  intros Hd Hn.
  destruct (solve_sampled visualize self point_count fnc g Hn)
    as [params [cands [g' [Lp [Ec [Lc [Ev [Eq Es]]]]]]]].
  assert (Hp : 2 <= length params) by lia.
  destruct (search_tracked params point_count fnc cands Hp Ec) as [st [Hs [Hsc T]]].
  exists cands, st. split; [exact Ev|]. split; [exact Lc|]. split.
  { pose proof (candidates_lengths params point_count cands Ec) as Hl.
    now rewrite Lp in Hl. }
  split; [now rewrite Eq|]. split; [|split; trivial].
  rewrite Es. unfold solve_from. rewrite Hs. simpl. f_equal.
  pose proof (f_equal snd Es) as Hsnd. cbn [snd] in Hsnd. rewrite <- Hsnd.
  unfold solve. rewrite (draw_axes_run point_count _ _ _ Hn). cbn [snd].
  unfold Py.range. now rewrite length_seq.
Qed.

(** X5: with two axes or more, the search loop of [solve] completes, and
    the trace it leaves is made of the entries [(arg[0], arg[1], value)] of
    exactly those candidates whose value is strictly below [+infinity] and
    strictly below the value of every candidate evaluated before that is not
    NaN, in evaluation order; it has at most [point_count] entries. *)
Theorem trace_is_records (visualize : visualizer) (self : Solution)
    (point_count : Z) (fnc : list float -> float) (g : Np.RandomState) :
  (2 <= dimension self)%Z -> (0 <= point_count)%Z ->
  exists cands st,
    evaluated self point_count g = inr cands /\
    searched self point_count fnc g = inr st /\
    fst (solve visualize self point_count fnc g) = conclude visualize self fnc st /\
    Forall2 (entry_of fnc) (records fnc [] cands) (best_points st) /\
    length (best_points st) <= Z.to_nat point_count.
Proof.
  intros Hd Hn.
  destruct (solve_scanned visualize self point_count fnc g Hd Hn)
    as [cands [st [Ev [L [_ [Eq [Es [Hs _]]]]]]]].
  destruct (scan_records fnc cands [] _ st (tracked_init fnc) Hs) as [ext [E F]].
  simpl in E. exists cands, st. split; [exact Ev|]. split; [exact Eq|].
  split; [now rewrite Es|]. rewrite E. split; trivial.
  rewrite <- (Forall2_length F), <- L. apply records_length.
Qed.

Lemma trace_is_records_witness :
  exists cands st,
    evaluated cube 3 descending = inr cands /\
    searched cube 3 first_coordinate descending = inr st /\
    fst (solve raising cube 3 first_coordinate descending)
      = inr (mkOutcome (best_value st) (best_points st) None) /\
    Forall2 (entry_of first_coordinate) (records first_coordinate [] cands)
      (best_points st) /\
    length (best_points st) <= Z.to_nat 3.
Proof.
  apply (trace_is_records raising cube 3 first_coordinate descending); simpl; lia.
Defined.

(** * More points, other orders *)






(** X7: on candidates of two coordinates or more, the best value with which
    the search loop ends, which is the value [solve] returns when it
    returns, does not depend on the order of evaluation: two runs whose
    candidate sequences are permutations of each other end with best values
    that are equal for [==]. *)
Theorem best_value_any_order (params1 params2 : list (list float))
    (point_count1 point_count2 : Z) (fnc : list float -> float)
    (cands1 cands2 : list (list float)) :
  2 <= length params1 -> 2 <= length params2 ->
  candidates params1 point_count1 = inr cands1 ->
  candidates params2 point_count2 = inr cands2 ->
  Permutation cands1 cands2 ->
  exists st1 st2,
    search params1 point_count1 fnc = inr st1 /\
    search params2 point_count2 fnc = inr st2 /\
    (best_value st1 =? best_value st2) = true /\
    (forall visualize1 visualize2 self1 self2 out1 out2,
       solve_from visualize1 self1 params1 point_count1 fnc = inr out1 ->
       solve_from visualize2 self2 params2 point_count2 fnc = inr out2 ->
       (returned out1 =? returned out2) = true).
Proof.
  intros Hp1 Hp2 Hc1 Hc2 Hperm.
  destruct (search_tracked params1 point_count1 fnc cands1 Hp1 Hc1)
    as [st1 [E1 [_ T1]]].
  destruct (search_tracked params2 point_count2 fnc cands2 Hp2 Hc2)
    as [st2 [E2 [_ T2]]].
  assert (below : forall ca cb sa sb,
             tracked fnc ca sa -> tracked fnc cb sb ->
             (forall arg, In arg ca -> In arg cb) ->
             (best_value sa <? best_value sb) = false).
  { intros ca cb sa sb Ta Tb Hin.
    destruct (tracked_cases fnc ca sa Ta) as [[_ E]|[t [p [arg [_ [E [Ha Hpa]]]]]]].
    - rewrite E. apply FloatOrder.infinity_ltb.
    - rewrite E, (entry_of_value fnc arg p Hpa).
      pose proof (tracked_lower _ _ _ Tb) as Hlo. rewrite Forall_forall in Hlo.
      apply (Hlo arg). now apply Hin. }
  assert (Heq : (best_value st1 =? best_value st2) = true).
  { apply FloatOrder.not_ltb_eqb.
    - apply (tracked_not_nan fnc cands1 st1 T1).
    - apply (tracked_not_nan fnc cands2 st2 T2).
    - apply (below cands1 cands2 st1 st2 T1 T2).
      intros arg. now apply Permutation_in.
    - apply (below cands2 cands1 st2 st1 T2 T1).
      intros arg. apply Permutation_in. now apply Permutation_sym. }
  exists st1, st2. split; [exact E1|]. split; [exact E2|]. split; [exact Heq|].
  intros visualize1 visualize2 self1 self2 out1 out2.
  unfold solve_from. rewrite E1, E2. simpl. intros O1 O2.
  destruct (conclude_inr _ _ _ _ _ O1) as [_ ->].
  destruct (conclude_inr _ _ _ _ _ O2) as [_ ->]. exact Heq.
Qed.

Lemma best_value_any_order_witness :
  exists st1 st2,
    search [[5; 3]; [1; 2]] 2 first_coordinate = inr st1 /\
    search [[3; 5]; [2; 1]] 2 first_coordinate = inr st2 /\
    (best_value st1 =? best_value st2) = true /\
    (forall visualize1 visualize2 self1 self2 out1 out2,
       solve_from visualize1 self1 [[5; 3]; [1; 2]] 2 first_coordinate = inr out1 ->
       solve_from visualize2 self2 [[3; 5]; [2; 1]] 2 first_coordinate = inr out2 ->
       (returned out1 =? returned out2) = true).
Proof.
  apply (best_value_any_order [[5; 3]; [1; 2]] [[3; 5]; [2; 1]] 2 2
           first_coordinate [[5; 1]; [3; 2]] [[3; 2]; [5; 1]]);
    [simpl; lia | simpl; lia | reflexivity | reflexivity | apply perm_swap].
Defined.

(** * The replay *)

Lemma update_points_columns (points : list point) (frame : nat) :
  update_points frame (x_values points) (y_values points) (z_values points)
  = Py.getitem points frame.
Proof.
  unfold update_points, x_values, y_values, z_values, Py.getitem, point in *.
  rewrite !nth_error_map.
  destruct (nth_error points frame) as [[[a b] c]|]; reflexivity.
Qed.

Lemma traverse_compose {A B C : Type} (f : B -> Py.result C) (h : A -> B) (xs : list A) :
  Py.traverse f (map h xs) = Py.traverse (fun x => f (h x)) xs.
Proof.
  induction xs as [|x xs IH]; simpl; trivial. now rewrite IH.
Qed.

Lemma traverse_getitem {A : Type} (xs : list A) :
  Py.traverse (Py.getitem xs) (seq 0 (length xs)) = inr xs.
Proof.
  induction xs as [|x xs IH]; simpl; trivial.
  rewrite <- seq_shift, traverse_compose.
  change (Py.traverse (fun i => Py.getitem (x :: xs) (S i)) (seq 0 (length xs)))
    with (Py.traverse (Py.getitem xs) (seq 0 (length xs))).
  now rewrite IH.
Qed.

(** X8: with the three lists [visualize] builds from [points], the frame
    [frame] scatters the point [points[frame]], and raises [IndexError] when
    [frame] is not below [len(points)]; so the frames [range(len(points))]
    scatter exactly the points, in order, and none of them raises. *)
Theorem frames_replay_points (points : list point) :
  (forall frame,
     update_points frame (x_values points) (y_values points) (z_values points)
     = Py.getitem points frame) /\
  (forall frame, length points <= frame ->
     update_points frame (x_values points) (y_values points) (z_values points)
     = inl Py.IndexError) /\
  Py.traverse
    (fun frame =>
       update_points frame (x_values points) (y_values points) (z_values points))
    (frames points)
  = inr points.
Proof.
  split; [|split].
  - apply update_points_columns.
  - intros frame Hf. rewrite update_points_columns. unfold Py.getitem.
    apply nth_error_None in Hf. now rewrite Hf.
  - unfold frames, Py.range. rewrite Nat2Z.id.
    rewrite <- (traverse_getitem points).
    generalize (seq 0 (length points)). intros idx.
    induction idx as [|i idx IH]; simpl; trivial.
    now rewrite update_points_columns, IH.
Qed.

Lemma frames_replay_points_witness :
  update_points 2 (x_values [(5, 1, 5); (3, 2, 3)]) (y_values [(5, 1, 5); (3, 2, 3)])
    (z_values [(5, 1, 5); (3, 2, 3)]) = inl Py.IndexError.
Proof.
  apply (proj1 (proj2 (frames_replay_points [(5, 1, 5); (3, 2, 3)])) 2%nat).
  simpl. lia.
Defined.

Lemma StronglySorted_nth_error {A : Type} (R : A -> A -> Prop) (xs : list A) :
  StronglySorted R xs ->
  forall j k a b, j < k -> nth_error xs j = Some a -> nth_error xs k = Some b -> R a b.
Proof.
  induction 1 as [|x xs _ IH Hx]; intros j k a b Hjk Ha Hb.
  - now destruct j.
  - destruct k as [|k]; [lia|]. simpl in Hb. destruct j as [|j]; simpl in Ha.
    + inversion Ha; subst. rewrite Forall_forall in Hx.
      apply Hx. eapply nth_error_In; eauto.
    + apply (IH j k a b); trivial. lia.
Qed.

(** X9: with two axes, the search loop of [solve] completes and [solve]
    calls [visualize] with the trace of the loop, returning the best value
    when that call returns and raising its exception otherwise. With the
    lists [visualize] builds from that trace, the point scattered at a frame
    number [k] has a value strictly below the value of the point scattered
    at any frame number [j < k], and the point scattered at the last frame
    number has the best value as its value. *)
Theorem replay_descends (visualize : visualizer) (self : Solution) (point_count : Z)
    (fnc : list float -> float) (g : Np.RandomState) :
  dimension self = 2%Z -> (0 <= point_count)%Z ->
  exists st,
    searched self point_count fnc g = inr st /\
    fst (solve visualize self point_count fnc g) =
      (let* shown := visualize self (best_points st) fnc in
       inr (mkOutcome (best_value st) (best_points st) (Some (best_points st)))) /\
    (forall j k pj pk, j < k ->
       update_points j (x_values (best_points st)) (y_values (best_points st))
         (z_values (best_points st)) = inr pj ->
       update_points k (x_values (best_points st)) (y_values (best_points st))
         (z_values (best_points st)) = inr pk ->
       (point_value pk <? point_value pj) = true) /\
    (forall p,
       update_points (length (best_points st) - 1) (x_values (best_points st))
         (y_values (best_points st)) (z_values (best_points st)) = inr p ->
       point_value p = best_value st).
Proof.
  intros Hd Hn.
  destruct (solve_tracked visualize self point_count fnc g)
    as [cands [st [_ [_ [Eq [Es T]]]]]]; [lia | exact Hn |].
  unfold conclude in Es. rewrite Hd in Es. simpl in Es.
  exists st. split; [exact Eq|]. split; [exact Es|]. split.
  - intros j k pj pk Hjk Hj Hk. rewrite update_points_columns in Hj, Hk.
    unfold Py.getitem in Hj, Hk.
    destruct (nth_error (best_points st) j) as [qj|] eqn:Ej; inversion Hj; subst qj.
    destruct (nth_error (best_points st) k) as [qk|] eqn:Ek; inversion Hk; subst qk.
    apply (StronglySorted_nth_error _ _ (tracked_sorted _ _ _ T) j k); trivial;
      now apply map_nth_error.
  - intros p Hp. rewrite update_points_columns in Hp. unfold Py.getitem in Hp.
    destruct (nth_error (best_points st) (length (best_points st) - 1)) as [q|] eqn:Eq';
      inversion Hp; subst q.
    destruct (tracked_cases fnc cands st T) as [[E _]|[t [p' [arg [E [Hb _]]]]]].
    + rewrite E in Eq'. discriminate.
    + rewrite E, length_app in Eq'. simpl in Eq'.
      replace (length t + 1 - 1)%nat with (length t) in Eq' by lia.
      rewrite nth_error_app2, Nat.sub_diag in Eq' by lia. simpl in Eq'.
      inversion Eq'; subst. now rewrite Hb.
Qed.

Lemma replay_descends_witness :
  exists st,
    searched square 3 first_coordinate descending = inr st /\
    fst (solve returning square 3 first_coordinate descending) =
      inr (mkOutcome (best_value st) (best_points st) (Some (best_points st))) /\
    (forall j k pj pk, j < k ->
       update_points j (x_values (best_points st)) (y_values (best_points st))
         (z_values (best_points st)) = inr pj ->
       update_points k (x_values (best_points st)) (y_values (best_points st))
         (z_values (best_points st)) = inr pk ->
       (point_value pk <? point_value pj) = true) /\
    (forall p,
       update_points (length (best_points st) - 1) (x_values (best_points st))
         (y_values (best_points st)) (z_values (best_points st)) = inr p ->
       point_value p = best_value st).
Proof.
  apply (replay_descends returning square 3 first_coordinate descending);
    [reflexivity | lia].
Defined.

(** * The program *)

(** X10: whatever the objective and the state of the generator, sampling
    and the search loop of [main] raise nothing: [main] consumes exactly
    40000 draws, its loop evaluates 20000 candidates of two coordinates and
    ends with a trace of at most 20000 entries; [main] then calls
    [visualize] with that trace, and ends as that call ends. *)
Theorem main_run (visualize : visualizer) (sphere : list float -> float)
    (g : Np.RandomState) :
  exists cands st,
    evaluated reversed 20000 g = inr cands /\
    length cands = Z.to_nat 20000 /\
    Forall (fun arg => length arg = 2%nat) cands /\
    searched reversed 20000 sphere g = inr st /\
    (Z.of_nat (length (best_points st)) <= 20000)%Z /\
    main visualize sphere g =
      (let* shown := visualize reversed (best_points st) sphere in
       inr (mkOutcome (best_value st) (best_points st) (Some (best_points st))),
       advanced g (Z.to_nat 40000)).
Proof.
  assert (Hn : (0 <= 20000)%Z) by lia.
  assert (Hd : (2 <= dimension reversed)%Z) by (simpl; lia).
  destruct (solve_scanned visualize reversed 20000 sphere g Hd Hn)
    as [cands [st [Ev [L [Hl [Eq [Es [Hs _]]]]]]]].
  destruct (scan_records sphere cands [] _ st (tracked_init sphere) Hs) as [ext [Ee F]].
  simpl in Ee.
  exists cands, st. split; [exact Ev|]. split; [exact L|]. split; [exact Hl|].
  split; [exact Eq|]. split.
  - rewrite Ee, <- (Forall2_length F).
    pose proof (records_length sphere cands []) as Hr. lia.
  - change (main visualize sphere g) with (solve visualize reversed 20000 sphere g).
    rewrite Es. change (Z.to_nat (dimension reversed)) with 2%nat.
    replace (2 * Z.to_nat 20000)%nat with (Z.to_nat 40000) by lia. reflexivity.
Qed.
